(** * ILM policy resource of the MinIO Terraform provider

    Shallow embedding of [minio/resource_minio_ilm_policy.go]: the
    expiration, transition and filter codecs, the rule assembler and the
    create / read / update / delete operations, together with the parts of
    Go's [fmt] and [time] packages and of minio-go's [lifecycle] package
    that the file calls.

    Go strings are byte strings ([string]); Go's [int] is a 64-bit signed
    integer (the CI workflow pins [GOARCH: amd64]) and is carried as [Z];
    [map[string]string] is a [gmap string string]. *)

From Stdlib Require Import ZArith Lia Ascii String.
From stdpp Require Import base option strings list gmap.

Local Open Scope string_scope.
Local Open Scope Z_scope.

(** ** Go's [fmt]: the scan [Sscanf(s, "%dd", &n)] and the print [Sprintf("%dd", n)] *)

Module GoFmt.

Definition code (c : ascii) : Z := Z.of_N (N_of_ascii c).

(** [decimalDigits = "0123456789"] and [sign = "+-"] of fmt/scan.go. *)
Definition isDigit (c : ascii) : bool := (48 <=? code c) && (code c <=? 57).
Definition isSign (c : ascii) : bool := (code c =? 43) || (code c =? 45).
Definition digitVal (c : ascii) : Z := code c - 48.
Definition digitChar (u : Z) : ascii := ascii_of_N (Z.to_N (48 + u)).

(** One-byte members of the [space] table of fmt/scan.go (U+0009..U+000D
    and U+0020); the newline is tested before this by [SkipSpace]. *)
Definition isSpace1 (c : ascii) : bool :=
  ((9 <=? code c) && (code c <=? 13)) || (code c =? 32).

(** UTF-8 encodings of the two-byte members U+0085 and U+00A0. *)
Definition isSpace2 (c1 c2 : ascii) : bool :=
  (code c1 =? 194) && ((code c2 =? 133) || (code c2 =? 160)).

(** UTF-8 encodings of the three-byte members U+1680, U+2000..U+200A,
    U+2028, U+2029, U+202F, U+205F and U+3000. *)
Definition isSpace3 (c1 c2 c3 : ascii) : bool :=
  ((code c1 =? 225) && (code c2 =? 154) && (code c3 =? 128))
  || ((code c1 =? 226) && (code c2 =? 128)
      && (((128 <=? code c3) && (code c3 <=? 138))
          || (code c3 =? 168) || (code c3 =? 169) || (code c3 =? 175)))
  || ((code c1 =? 226) && (code c2 =? 129) && (code c3 =? 159))
  || ((code c1 =? 227) && (code c2 =? 128) && (code c3 =? 128)).

(** [ss.SkipSpace] with [nlIsSpace = false], as [Sscanf] runs it: runes
    for which [isSpace] holds are dropped, a newline is the error
    "unexpected newline" ([None]), anything else is left unread.  A
    carriage return before a newline is dropped like any other space and
    the newline then raises the error. *)
Fixpoint SkipSpace (s : string) : option string :=
  match s with
  | EmptyString => Some s
  | String c1 s1 =>
      if code c1 =? 10 then None
      else if isSpace1 c1 then SkipSpace s1
      else
        match s1 with
        | String c2 s2 =>
            if isSpace2 c1 c2 then SkipSpace s2
            else
              match s2 with
              | String c3 s3 => if isSpace3 c1 c2 c3 then SkipSpace s3 else Some s
              | EmptyString => Some s
              end
        | EmptyString => Some s
        end
  end.

(** Every byte of the string is a decimal digit. *)
Fixpoint allDigits (s : string) : bool :=
  match s with
  | EmptyString => true
  | String c s' => isDigit c && allDigits s'
  end.

(** [s.accept(sign)]: an optional sign goes to the token buffer. *)
Definition acceptSign (s : string) : string * string :=
  match s with
  | String c s' => if isSign c then (String c EmptyString, s') else (EmptyString, s)
  | EmptyString => (EmptyString, s)
  end.

(** The loop [for s.accept(digits) {}] of [scanNumber]: the longest run of
    decimal digits and the unread rest. *)
Fixpoint scanDigits (s : string) : string * string :=
  match s with
  | String c s' =>
      if isDigit c then let '(tok, rest) := scanDigits s' in (String c tok, rest)
      else (EmptyString, s)
  | EmptyString => (EmptyString, s)
  end.

(** [strconv.ParseUint(s, 10, 64)]: the accumulation [n = n*10 + d] over
    decimal digits; a byte that is no digit is a syntax error, a value
    above [2^64 - 1] a range error. *)
Fixpoint digitsVal (acc : Z) (s : string) : option Z :=
  match s with
  | EmptyString => Some acc
  | String c s' => if isDigit c then digitsVal (acc * 10 + digitVal c) s' else None
  end.

Definition ParseUint (s : string) : option Z :=
  match s with
  | EmptyString => None
  | _ => un ← digitsVal 0 s; if un <? 2 ^ 64 then Some un else None
  end.

(** [strconv.ParseInt(s, 10, 64)]: sign, then [ParseUint], then the
    cutoff [1 << 63]. *)
Definition ParseInt (s : string) : option Z :=
  match s with
  | EmptyString => None
  | String c s' =>
      let '(neg, ds) :=
        if code c =? 43 then (false, s')
        else if code c =? 45 then (true, s')
        else (false, s) in
      un ← ParseUint ds;
      if neg then (if un <=? 2 ^ 63 then Some (- un) else None)
      else (if un <? 2 ^ 63 then Some un else None)
  end.

(** [ss.scanInt('d', 64)]: skip spaces, fail at end of input, take an
    optional sign, demand one digit and take all that follow, convert the
    token.  Returns the integer and the unread input. *)
Definition scanInt (s : string) : option (Z * string) :=
  s ← SkipSpace s;
  match s with
  | EmptyString => None
  | _ =>
      let '(sg, s1) := acceptSign s in
      let '(ds, rest) := scanDigits s1 in
      match ds with
      | EmptyString => None
      | _ => i ← ParseInt (sg +:+ ds); Some (i, rest)
      end
  end.

(** [fmt.Sscanf(str, "%dd", &n)]: [doScanf] skips spaces before the verb,
    scans the integer, then [advance] must read the literal [d] (end of
    input there is "unexpected EOF", another rune "input does not match
    format").  The format is then exhausted and the call returns without
    looking at what is left of the input.  [Some n] is [err == nil] with
    [n] stored; [None] is any error.  (Inputs of [2^30] runes or more,
    where the scanner's width limit would cut in, are outside the
    model.) *)
Definition Sscanf_dd (str : string) : option Z :=
  s ← SkipSpace str;
  '(n, rest) ← scanInt s;
  match rest with
  | String c _ => if code c =? 100 then Some n else None
  | EmptyString => None
  end.

(** The digit loop of [fmt.fmtInteger] for base 10: digits are written
    from the right end of a fixed buffer, least significant first. *)
Fixpoint fmtUint (room : nat) (u : Z) (buf : string) : string :=
  match room with
  | O => buf
  | S room' =>
      if u <? 10 then String (digitChar u) buf
      else fmtUint room' (u / 10) (String (digitChar (u mod 10)) buf)
  end.

(** [fmt.Sprintf("%d", n)] for a 64-bit [n] (at most 20 digits). *)
Definition Sprintf_d (n : Z) : string :=
  let body := fmtUint 20 (Z.abs n) EmptyString in
  if n <? 0 then String "-" body else body.

(** [fmt.Sprintf("%dd", n)]. *)
Definition Sprintf_dd (n : Z) : string := Sprintf_d n +:+ "d".

End GoFmt.

(** ** Go's [time]: [time.Parse] and [Time.Format] with layout ["2006-01-02"] *)

Module GoTime.

(** A [time.Time] holding a calendar date at midnight UTC, which is what
    [time.Parse("2006-01-02", _)] returns and what a lifecycle [Date]
    carries.  The zero [Time] is January 1 of year 1; a parsed
    ["0001-01-01"] is field for field that zero value. *)
Record Time := { year : Z; month : Z; day : Z }.

#[global] Instance Time_eq_dec : EqDecision Time.
Proof. solve_decision. Defined.

Definition zero : Time := {| year := 1; month := 1; day := 1 |}.

Definition IsZero (t : Time) : bool := bool_decide (t = zero).

Definition isLeap (y : Z) : bool :=
  (y mod 4 =? 0) && (negb (y mod 100 =? 0) || (y mod 400 =? 0)).

Definition daysIn (m y : Z) : Z :=
  if (m =? 2) && isLeap y then 29
  else if m =? 2 then 28
  else if (m =? 4) || (m =? 6) || (m =? 9) || (m =? 11) then 30
  else 31.

Definition num2 (a b : ascii) : Z := GoFmt.digitVal a * 10 + GoFmt.digitVal b.

(** [time.Parse("2006-01-02", value)]: four digits, a dash, two digits, a
    dash, two digits and nothing after them ("extra text" otherwise); the
    month must lie in 1..12 and the day in 1..[daysIn]. *)
Definition Parse (value : string) : option Time :=
  match value with
  | String y1 (String y2 (String y3 (String y4 (String h1
      (String m1 (String m2 (String h2 (String d1 (String d2 EmptyString))))))))) =>
      if GoFmt.isDigit y1 && GoFmt.isDigit y2 && GoFmt.isDigit y3 && GoFmt.isDigit y4
         && (GoFmt.code h1 =? 45)
         && GoFmt.isDigit m1 && GoFmt.isDigit m2
         && (GoFmt.code h2 =? 45)
         && GoFmt.isDigit d1 && GoFmt.isDigit d2
      then
        let y := num2 y1 y2 * 100 + num2 y3 y4 in
        let m := num2 m1 m2 in
        let d := num2 d1 d2 in
        if (m <=? 0) || (12 <? m) then None
        else if (d <? 1) || (daysIn m y <? d) then None
        else Some {| year := y; month := m; day := d |}
      else None
  | _ => None
  end.

Fixpoint zeros (n : nat) : string :=
  match n with O => EmptyString | S n' => String "0" (zeros n') end.

(** [appendInt(b, x, width)] of time/format.go: sign, zero padding up to
    [width] digits, decimal digits. *)
Definition appendInt (x : Z) (width : nat) : string :=
  let ds := GoFmt.fmtUint 20 (Z.abs x) EmptyString in
  let padded := zeros (width - String.length ds) +:+ ds in
  if x <? 0 then String "-" padded else padded.

(** [t.Format("2006-01-02")]. *)
Definition Format (t : Time) : string :=
  appendInt (year t) 4 +:+ "-" +:+ appendInt (month t) 2 +:+ "-" +:+ appendInt (day t) 2.

End GoTime.

(** ** minio-go's [lifecycle] package: the structs and predicates the resource uses

    Only the fields the resource reads or writes are carried; every other
    field of the Go structs keeps its zero value on the paths modelled
    here. *)

Module lifecycle.

Module Expiration.
(** [Days] is an [ExpirationDays] (an [int]); [DeleteMarker] is an
    [ExpireDeleteMarker] (a [bool]). *)
Record t := { Date : GoTime.Time; Days : Z; DeleteMarker : bool }.

#[global] Instance eq_dec : EqDecision t.
Proof. solve_decision. Defined.

(** The composite literal [lifecycle.Expiration{}]. *)
Definition zero : t := {| Date := GoTime.zero; Days := 0; DeleteMarker := false |}.

Definition IsDaysNull (e : t) : bool := Days e =? 0.
Definition IsDateNull (e : t) : bool := GoTime.IsZero (Date e).
Definition IsNull (e : t) : bool :=
  IsDaysNull e && IsDateNull e && negb (DeleteMarker e).
End Expiration.

Module Transition.
Record t := { Date : GoTime.Time; StorageClass : string; Days : Z }.

#[global] Instance eq_dec : EqDecision t.
Proof. solve_decision. Defined.

Definition zero : t := {| Date := GoTime.zero; StorageClass := EmptyString; Days := 0 |}.

Definition IsDaysNull (tr : t) : bool := Days tr =? 0.
Definition IsDateNull (tr : t) : bool := GoTime.IsZero (Date tr).
(** "IsNull returns true if no storage-class is set." *)
Definition IsNull (tr : t) : bool := bool_decide (StorageClass tr = EmptyString).
End Transition.

Module Tag.
Record t := { Key : string; Value : string }.

#[global] Instance eq_dec : EqDecision t.
Proof. solve_decision. Defined.
End Tag.

Module And.
Record t := { Prefix : string; Tags : list Tag.t }.

#[global] Instance eq_dec : EqDecision t.
Proof. solve_decision. Defined.

Definition zero : t := {| Prefix := EmptyString; Tags := [] |}.
End And.

Module Filter.
Record t := { And : And.t; Prefix : string }.

#[global] Instance eq_dec : EqDecision t.
Proof. solve_decision. Defined.

(** [var filter lifecycle.Filter]. *)
Definition zero : t := {| And := And.zero; Prefix := EmptyString |}.
End Filter.

Module Rule.
(** [NoncurrentVersionExpiration] and [NoncurrentVersionTransition] are
    carried by their [NoncurrentDays] field. *)
Record t := {
  ID : string;
  Expiration : Expiration.t;
  Transition : Transition.t;
  NoncurrentVersionExpiration : Z;
  NoncurrentVersionTransition : Z;
  Status : string;
  RuleFilter : Filter.t
}.

#[global] Instance eq_dec : EqDecision t.
Proof. solve_decision. Defined.
End Rule.

(** A [*lifecycle.Configuration] is carried by its [Rules] slice;
    [NewConfiguration()] has none. *)
Definition Configuration : Type := list Rule.t.
Definition NewConfiguration : Configuration := [].

End lifecycle.

(** ** The Terraform side: rule attributes, resource data, diagnostics *)

(** One element of the [transition] list: a map from the schema keys
    [days], [date] and [storage_class] to strings; a key that is not set
    reads as the empty string. *)
Module TransitionData.
Record t := { days : string; date : string; storage_class : string }.

#[global] Instance eq_dec : EqDecision t.
Proof. solve_decision. Defined.
End TransitionData.

(** One element of the [rule] list, the [map[string]interface{}] with the
    keys of the schema. *)
Module RuleData.
Record t := {
  id : string;
  expiration : string;
  transition : list TransitionData.t;
  noncurrent_version_expiration_days : Z;
  noncurrent_version_transition_days : Z;
  status : string;
  filter : string;
  tags : gmap string string
}.

#[global] Instance eq_dec : EqDecision t.
Proof. solve_decision. Defined.
End RuleData.

(** [*schema.ResourceData] as this resource uses it: the identity
    ([d.Id()], empty when the resource is absent) and the attributes
    [bucket] and [rule].  [d.Set] on a value of the attribute's type
    cannot fail, so the two error branches after [d.Set] in the read
    operation have no counterpart here. *)
Module ResourceData.
Record t := { Id : string; bucket : string; rule : list RuleData.t }.

#[global] Instance eq_dec : EqDecision t.
Proof. solve_decision. Defined.

Definition SetId (d : t) (v : string) : t :=
  {| Id := v; bucket := bucket d; rule := rule d |}.
Definition Set_bucket (d : t) (v : string) : t :=
  {| Id := Id d; bucket := v; rule := rule d |}.
Definition Set_rule (d : t) (v : list RuleData.t) : t :=
  {| Id := Id d; bucket := bucket d; rule := v |}.
End ResourceData.

(** The error value a store call returns. *)
Definition error : Type := string.

Module diag.
(** Modelled from the spec: [NewResourceError] is declared in another
    file of the package; the spec describes its result as a diagnostic
    carrying a human-readable message and the bucket name as context, with
    the underlying cause.  The diagnostic is kept structured, with the
    three arguments of the call.  [Errorf] is the SDK's [diag.Errorf]. *)
Inductive Diagnostic : Type :=
| Errorf (msg : string)
| NewResourceError (msg resource : string) (err : error).

#[global] Instance eq_dec : EqDecision Diagnostic.
Proof. solve_decision. Defined.

(** [diag.Diagnostics]; [nil] is the empty list. *)
Definition Diagnostics : Type := list Diagnostic.
End diag.

(** The storage client the operations call: [SetBucketLifecycle(ctx,
    bucket, config)] and [GetBucketLifecycle(ctx, bucket)].  Both thread the
    state of the remote store, so that any behaviour of the remote end
    (failures included) is an instance. *)
Class S3Client (Store : Type) := {
  SetBucketLifecycle : Store → string → lifecycle.Configuration → Store * option error;
  GetBucketLifecycle : Store → string → Store * (lifecycle.Configuration + error)
}.

(** Go visits the entries of a map in an unspecified order.  A [MapRange]
    is one such order: some enumeration of the entries of each map. *)
Record MapRange := {
  range : gmap string string → list (string * string);
  range_perm : ∀ m, range m ≡ₚ map_to_list m
}.

Definition defaultRange : MapRange :=
  {| range := map_to_list; range_perm := λ m, reflexivity (map_to_list m) |}.

(** ** The resource: [minio/resource_minio_ilm_policy.go] *)

Import lifecycle.

(** [parseILMExpiration]: the literal, then the duration scan, then the
    date parse, else the zero value. *)
Definition parseILMExpiration (s : string) : Expiration.t :=
  if bool_decide (s = "DeleteMarker") then
    {| Expiration.Date := GoTime.zero; Expiration.Days := 0; Expiration.DeleteMarker := true |}
  else
    match GoFmt.Sscanf_dd s with
    | Some days =>
        {| Expiration.Date := GoTime.zero; Expiration.Days := days;
           Expiration.DeleteMarker := false |}
    | None =>
        match GoTime.Parse s with
        | Some date =>
            {| Expiration.Date := date; Expiration.Days := 0;
               Expiration.DeleteMarker := false |}
        | None => Expiration.zero
        end
    end.

(** The byte 0x22, for messages that quote a word. *)
Definition dquote : string := String (ascii_of_N 34) EmptyString.

Definition expirationFormatError : string :=
  "expiration must be a duration (5d), date (1970-01-01), or "
  +:+ dquote +:+ "DeleteMarker" +:+ dquote.

(** [validateILMExpiration], the [ValidateDiagFunc] of the [expiration]
    attribute. *)
Definition validateILMExpiration (value : string) : diag.Diagnostics :=
  let exp := parseILMExpiration value in
  if bool_decide (Expiration.zero = exp) then [diag.Errorf expirationFormatError]
  else [].

Definition validateILMNoncurrentVersionExpiration (value : Z) : diag.Diagnostics :=
  if value <? 1 then
    [diag.Errorf "noncurrent_version_expiration_days must be strictly positive"]
  else [].

Definition validateILMNoncurrentVersionTransition (value : Z) : diag.Diagnostics :=
  if value <? 1 then
    [diag.Errorf "noncurrent_version_transition_days must be strictly positive"]
  else [].

(** [parseILMTransition]: nothing for the empty list; otherwise the first
    element, its [days] scanned first and its [date] parsed second. *)
Definition parseILMTransition (transitions : list TransitionData.t) : Transition.t :=
  match transitions with
  | [] => Transition.zero
  | t :: _ =>
      match GoFmt.Sscanf_dd (TransitionData.days t) with
      | Some days =>
          {| Transition.Date := GoTime.zero;
             Transition.StorageClass := TransitionData.storage_class t;
             Transition.Days := days |}
      | None =>
          match GoTime.Parse (TransitionData.date t) with
          | Some date =>
              {| Transition.Date := date;
                 Transition.StorageClass := TransitionData.storage_class t;
                 Transition.Days := 0 |}
          | None => Transition.zero
          end
      end
  end.

(** The filter of a rule being written (the [if len(tags) > 0] block of
    [minioCreateILMPolicy]): with tags, the AND part takes the prefix and
    one [Tag] per map entry, in the order the map is ranged over; without,
    the prefix goes to the filter itself. *)
Definition encodeFilter (o : MapRange) (prefix : string) (tags : gmap string string)
  : Filter.t :=
  if bool_decide (0 < size tags)%nat then
    {| Filter.And :=
         {| And.Prefix := prefix;
            And.Tags := (λ kv, {| Tag.Key := kv.1; Tag.Value := kv.2 |}) <$> range o tags |};
       Filter.Prefix := EmptyString |}
  else {| Filter.And := And.zero; Filter.Prefix := prefix |}.

(** The body of the loop over [rules] in [minioCreateILMPolicy]. *)
Definition buildRule (o : MapRange) (rule : RuleData.t) : Rule.t :=
  {| Rule.ID := RuleData.id rule;
     Rule.Expiration := parseILMExpiration (RuleData.expiration rule);
     Rule.Transition := parseILMTransition (RuleData.transition rule);
     Rule.NoncurrentVersionExpiration := RuleData.noncurrent_version_expiration_days rule;
     Rule.NoncurrentVersionTransition := RuleData.noncurrent_version_transition_days rule;
     Rule.Status := "Enabled";
     Rule.RuleFilter := encodeFilter o (RuleData.filter rule) (RuleData.tags rule) |}.

(** The expiration string of a rule being read. *)
Definition decodeExpiration (e : Expiration.t) : string :=
  if Expiration.DeleteMarker e then "DeleteMarker"
  else if negb (Expiration.Days e =? 0) then GoFmt.Sprintf_dd (Expiration.Days e)
  else if negb (Expiration.IsNull e) then GoTime.Format (Expiration.Date e)
  else EmptyString.

(** The transition list of a rule being read. *)
Definition decodeTransition (tr : Transition.t) : list TransitionData.t :=
  if negb (Transition.IsNull tr) then
    [ {| TransitionData.days :=
           if negb (Transition.IsDaysNull tr) then GoFmt.Sprintf_dd (Transition.Days tr)
           else EmptyString;
         TransitionData.date :=
           if negb (Transition.IsDaysNull tr) then EmptyString
           else if negb (Transition.IsDateNull tr) then GoTime.Format (Transition.Date tr)
           else EmptyString;
         TransitionData.storage_class := Transition.StorageClass tr |} ]
  else [].

Definition decodeNoncurrentDays (n : Z) : Z := if negb (n =? 0) then n else 0.

(** Prefix and tags of a rule being read: the AND part when it has tags
    ([tags[tag.Key] = tag.Value] in list order), the filter's own prefix
    otherwise. *)
Definition decodeFilter (f : Filter.t) : string * gmap string string :=
  if bool_decide (0 < length (And.Tags (Filter.And f)))%nat then
    (And.Prefix (Filter.And f),
     foldl (λ m tag, <[Tag.Key tag := Tag.Value tag]> m) ∅ (And.Tags (Filter.And f)))
  else (Filter.Prefix f, ∅).

(** The body of the loop over [config.Rules] in [minioReadILMPolicy]. *)
Definition decodeRule (r : Rule.t) : RuleData.t :=
  let '(prefix, tags) := decodeFilter (Rule.RuleFilter r) in
  {| RuleData.id := Rule.ID r;
     RuleData.expiration := decodeExpiration (Rule.Expiration r);
     RuleData.transition := decodeTransition (Rule.Transition r);
     RuleData.noncurrent_version_expiration_days :=
       decodeNoncurrentDays (Rule.NoncurrentVersionExpiration r);
     RuleData.noncurrent_version_transition_days :=
       decodeNoncurrentDays (Rule.NoncurrentVersionTransition r);
     RuleData.status := Rule.Status r;
     RuleData.filter := prefix;
     RuleData.tags := tags |}.

Section Operations.
Context {Store : Type} `{!S3Client Store}.
Variable o : MapRange.

(** [minioReadILMPolicy].  The failed fetch is logged (the log is not part
    of the model), the identity is cleared and [nil] is returned. *)
Definition minioReadILMPolicy (c : Store) (d : ResourceData.t)
  : Store * ResourceData.t * diag.Diagnostics :=
  match GetBucketLifecycle c (ResourceData.Id d) with
  | (c', inr err) => (c', ResourceData.SetId d EmptyString, [])
  | (c', inl config) =>
      let d := ResourceData.Set_bucket d (ResourceData.Id d) in
      (c', ResourceData.Set_rule d (decodeRule <$> config), [])
  end.

(** [minioCreateILMPolicy]. *)
Definition minioCreateILMPolicy (c : Store) (d : ResourceData.t)
  : Store * ResourceData.t * diag.Diagnostics :=
  let bucket := ResourceData.bucket d in
  let config := buildRule o <$> ResourceData.rule d in
  match SetBucketLifecycle c bucket config with
  | (c', Some err) =>
      (c', d, [diag.NewResourceError "creating bucket lifecycle failed" bucket err])
  | (c', None) => minioReadILMPolicy c' (ResourceData.SetId d bucket)
  end.

(** [minioUpdateILMPolicy]; [hasChange] is [d.HasChange("rule")].  The
    diagnostics of the nested create call are dropped, as in the source. *)
Definition minioUpdateILMPolicy (hasChange : bool) (c : Store) (d : ResourceData.t)
  : Store * ResourceData.t * diag.Diagnostics :=
  let '(c, d) :=
    if hasChange then
      let '(c', d', _) := minioCreateILMPolicy c d in (c', d')
    else (c, d) in
  minioReadILMPolicy c d.

(** [minioDeleteILMPolicy]. *)
Definition minioDeleteILMPolicy (c : Store) (d : ResourceData.t)
  : Store * ResourceData.t * diag.Diagnostics :=
  match SetBucketLifecycle c (ResourceData.Id d) NewConfiguration with
  | (c', Some err) =>
      (c', d,
       [diag.NewResourceError "deleting lifecycle configuration failed"
          (ResourceData.Id d) err])
  | (c', None) => (c', ResourceData.SetId d EmptyString, [])
  end.

End Operations.

(** An in-memory store for running the operations: the buckets that exist,
    each with its rules and a flag telling whether its lifecycle may be
    written.  A call on a bucket that does not exist fails, and so does a
    write to a bucket that is read-only. *)
Module Bucket.
Record t := { writable : bool; rules : Configuration }.
End Bucket.

Definition memStore : Type := gmap string Bucket.t.

#[global] Instance memStore_client : S3Client memStore := {|
  SetBucketLifecycle st bucket config :=
    match st !! bucket with
    | Some b =>
        if Bucket.writable b then
          (<[bucket := {| Bucket.writable := true; Bucket.rules := config |}]> st, None)
        else (st, Some "AccessDenied")
    | None => (st, Some "NoSuchBucket")
    end;
  GetBucketLifecycle st bucket :=
    match st !! bucket with
    | Some b => (st, inl (Bucket.rules b))
    | None => (st, inr "NoSuchBucket")
    end
|}.

(** ** The shapes the specification names, and the data of its scenarios *)

Module Spec.

(** The duration shape in the spec's words, "a duration token matching
    the pattern <integer>d": an optional sign, one or more decimal
    digits, the letter [d], and nothing else. *)
Definition durationShape (s : string) : bool :=
  let '(_, s1) := GoFmt.acceptSign s in
  let '(ds, rest) := GoFmt.scanDigits s1 in
  negb (bool_decide (ds = EmptyString)) && bool_decide (rest = "d").

(** "An ISO calendar date (YYYY-MM-DD)". *)
Definition dateShape (s : string) : bool := bool_decide (is_Some (GoTime.Parse s)).

(** "Literal DeleteMarker". *)
Definition deleteMarkerShape (s : string) : bool := bool_decide (s = "DeleteMarker").

Definition acceptedShape (s : string) : bool :=
  durationShape s || dateShape s || deleteMarkerShape s.

(** The spec's [Days(n)], [Simple(prefix)] and [Compound(prefix, tags)]
    as values of the Go structs. *)
Definition Days (n : Z) : Expiration.t :=
  {| Expiration.Date := GoTime.zero; Expiration.Days := n; Expiration.DeleteMarker := false |}.

(** The spec's [Date(d)] as a value of the Go struct. *)
Definition Date (d : GoTime.Time) : Expiration.t :=
  {| Expiration.Date := d; Expiration.Days := 0; Expiration.DeleteMarker := false |}.

Definition Simple (prefix : string) : Filter.t :=
  {| Filter.And := And.zero; Filter.Prefix := prefix |}.

Definition Compound (prefix : string) (tags : list Tag.t) : Filter.t :=
  {| Filter.And := {| And.Prefix := prefix; And.Tags := tags |};
     Filter.Prefix := EmptyString |}.

(** The input rule [r1] of the first end-to-end scenario; [status] is
    computed, so whatever the input holds there is [st]. *)
Definition r1 (st : string) : RuleData.t :=
  {| RuleData.id := "r1"; RuleData.expiration := "5d"; RuleData.transition := [];
     RuleData.noncurrent_version_expiration_days := 0;
     RuleData.noncurrent_version_transition_days := 0;
     RuleData.status := st; RuleData.filter := "tmp/"; RuleData.tags := ∅ |}.

(** A resource on bucket ["b1"] configured with the rule [r1]. *)
Definition d1 : ResourceData.t :=
  {| ResourceData.Id := "b1"; ResourceData.bucket := "b1";
     ResourceData.rule := [r1 EmptyString] |}.

(** A store where ["b1"] exists without rules and accepts writes, and one
    where it refuses them. *)
Definition openStore : memStore :=
  {[ "b1" := {| Bucket.writable := true; Bucket.rules := [] |} ]}.
Definition lockedStore : memStore :=
  {[ "b1" := {| Bucket.writable := false; Bucket.rules := [] |} ]}.

(** Transition descriptors: days set, date set, neither parsing. *)
Definition byDays : TransitionData.t :=
  {| TransitionData.days := "30d"; TransitionData.date := EmptyString;
     TransitionData.storage_class := "GLACIER" |}.
Definition byDate : TransitionData.t :=
  {| TransitionData.days := EmptyString; TransitionData.date := "2030-01-31";
     TransitionData.storage_class := "GLACIER" |}.
Definition byNeither : TransitionData.t :=
  {| TransitionData.days := "soon"; TransitionData.date := "31/01/2030";
     TransitionData.storage_class := "GLACIER" |}.

(** Transition descriptors whose [days] carries text after the duration
    token, with a date beside it and without. *)
Definition byTrailing : TransitionData.t :=
  {| TransitionData.days := "5days"; TransitionData.date := "2030-01-31";
     TransitionData.storage_class := "GLACIER" |}.
Definition byTrailingNoDate : TransitionData.t :=
  {| TransitionData.days := "5days"; TransitionData.date := EmptyString;
     TransitionData.storage_class := "GLACIER" |}.

(** A rule input with two tags and a transition by days. *)
Definition r2 : RuleData.t :=
  {| RuleData.id := "r2"; RuleData.expiration := "DeleteMarker";
     RuleData.transition := [byDays];
     RuleData.noncurrent_version_expiration_days := 30;
     RuleData.noncurrent_version_transition_days := 0;
     RuleData.status := EmptyString; RuleData.filter := "logs/";
     RuleData.tags := <[ "env" := "prod" ]> {[ "k" := "v" ]} |}.

End Spec.

(** A second order of ranging over a map: the entries of [defaultRange],
    last to first. *)
Definition reverseRange : MapRange :=
  {| range := λ m, reverse (map_to_list m);
     range_perm := λ m, reverse_Permutation (map_to_list m) |}.

(** Two store rules that agree in every field except, possibly, the order
    of the tags in the AND part of the filter. *)
Definition sameRuleUpToTagOrder (a b : Rule.t) : Prop :=
  Rule.ID a = Rule.ID b
  ∧ Rule.Expiration a = Rule.Expiration b
  ∧ Rule.Transition a = Rule.Transition b
  ∧ Rule.NoncurrentVersionExpiration a = Rule.NoncurrentVersionExpiration b
  ∧ Rule.NoncurrentVersionTransition a = Rule.NoncurrentVersionTransition b
  ∧ Rule.Status a = Rule.Status b
  ∧ Filter.Prefix (Rule.RuleFilter a) = Filter.Prefix (Rule.RuleFilter b)
  ∧ And.Prefix (Filter.And (Rule.RuleFilter a)) = And.Prefix (Filter.And (Rule.RuleFilter b))
  ∧ And.Tags (Filter.And (Rule.RuleFilter a)) ≡ₚ And.Tags (Filter.And (Rule.RuleFilter b)).

(** A store that takes every write and answers no read: for running the
    operations where the read after a write fails. *)
Inductive blindStore : Type := Blind.

#[global] Instance blindStore_client : S3Client blindStore := {|
  SetBucketLifecycle st bucket config := (Blind, None);
  GetBucketLifecycle st bucket := (Blind, inr "RequestTimeout")
|}.

(** Transition lists whose encoding survives being decoded: the empty
    list, a list whose first element has neither a [days] that scans nor a
    [date] that parses (it encodes to the zero [Transition]), and a list
    whose first element has a storage class and either a [days] that scans
    to a non-zero number or, failing the scan, a [date] other than the zero
    date. *)
Definition transitionRoundTrips (ts : list TransitionData.t) : bool :=
  match ts with
  | [] => true
  | t :: _ =>
      match GoFmt.Sscanf_dd (TransitionData.days t) with
      | Some n =>
          negb (n =? 0) && negb (bool_decide (TransitionData.storage_class t = EmptyString))
      | None =>
          match GoTime.Parse (TransitionData.date t) with
          | Some d =>
              negb (bool_decide (d = GoTime.zero))
              && negb (bool_decide (TransitionData.storage_class t = EmptyString))
          | None => true
          end
      end
  end.

(** A calendar date that [Format] prints with four digits for the year:
    a year from 0 to 9999, a month from 1 to 12, a day of that month. *)
Definition validDate (d : GoTime.Time) : bool :=
  (0 <=? GoTime.year d) && (GoTime.year d <=? 9999)
  && (1 <=? GoTime.month d) && (GoTime.month d <=? 12)
  && (1 <=? GoTime.day d) && (GoTime.day d <=? GoTime.daysIn (GoTime.month d) (GoTime.year d)).

(** A rule input as it comes back from a write followed by a read: the
    expiration and the transition in the form the codecs print, the status
    "Enabled", everything else as given. *)
Definition canonicalRule (r : RuleData.t) : RuleData.t :=
  {| RuleData.id := RuleData.id r;
     RuleData.expiration := decodeExpiration (parseILMExpiration (RuleData.expiration r));
     RuleData.transition := decodeTransition (parseILMTransition (RuleData.transition r));
     RuleData.noncurrent_version_expiration_days :=
       RuleData.noncurrent_version_expiration_days r;
     RuleData.noncurrent_version_transition_days :=
       RuleData.noncurrent_version_transition_days r;
     RuleData.status := "Enabled";
     RuleData.filter := RuleData.filter r;
     RuleData.tags := RuleData.tags r |}.

(** ** The library models on sample inputs *)

Example Sscanf_dd_samples :
  GoFmt.Sscanf_dd "5d" = Some 5
  ∧ GoFmt.Sscanf_dd " +7d" = Some 7
  ∧ GoFmt.Sscanf_dd "-12d" = Some (-12)
  ∧ GoFmt.Sscanf_dd "007d" = Some 7
  ∧ GoFmt.Sscanf_dd "5" = None
  ∧ GoFmt.Sscanf_dd "d" = None
  ∧ GoFmt.Sscanf_dd "5 d" = None
  ∧ GoFmt.Sscanf_dd EmptyString = None
  ∧ GoFmt.Sscanf_dd "2006-01-02" = None
  ∧ GoFmt.Sscanf_dd "9223372036854775807d" = Some 9223372036854775807
  ∧ GoFmt.Sscanf_dd "9223372036854775808d" = None.
Proof. repeat split; reflexivity. Qed.

Example Sprintf_dd_samples :
  GoFmt.Sprintf_dd 5 = "5d"
  ∧ GoFmt.Sprintf_dd 0 = "0d"
  ∧ GoFmt.Sprintf_dd (-40) = "-40d"
  ∧ GoFmt.Sprintf_dd 9223372036854775807 = "9223372036854775807d".
Proof. repeat split; reflexivity. Qed.

Example Parse_samples :
  GoTime.Parse "2024-02-29" = Some {| GoTime.year := 2024; GoTime.month := 2; GoTime.day := 29 |}
  ∧ GoTime.Parse "2023-02-29" = None
  ∧ GoTime.Parse "2024-13-01" = None
  ∧ GoTime.Parse "2024-1-01" = None
  ∧ GoTime.Parse "2024-01-01T00:00:00Z" = None
  ∧ GoTime.Parse "0001-01-01" = Some GoTime.zero.
Proof. repeat split; reflexivity. Qed.

Example Format_samples :
  GoTime.Format {| GoTime.year := 1970; GoTime.month := 1; GoTime.day := 1 |} = "1970-01-01"
  ∧ GoTime.Format {| GoTime.year := 24; GoTime.month := 12; GoTime.day := 9 |} = "0024-12-09"
  ∧ GoTime.Format GoTime.zero = "0001-01-01".
Proof. repeat split; reflexivity. Qed.

(** ** Scanning what was printed *)

Module GoFmtFacts.
Import GoFmt.

Lemma app_String (c : ascii) (s r : string) : String c s +:+ r = String c (s +:+ r).
Proof. reflexivity. Qed.

Lemma app_Empty (r : string) : EmptyString +:+ r = r.
Proof. reflexivity. Qed.

Lemma app_Empty_r (s : string) : s +:+ EmptyString = s.
Proof. induction s as [|c s IH]; [reflexivity|]. rewrite app_String. by rewrite IH. Qed.

Lemma app_assoc (a b c : string) : (a +:+ b) +:+ c = a +:+ (b +:+ c).
Proof. induction a as [|x a IH]; [reflexivity|]. rewrite !app_String. by rewrite IH. Qed.

Lemma code_digitChar (u : Z) : 0 <= u < 10 → code (digitChar u) = 48 + u.
Proof.
  intros Hu. unfold code, digitChar.
  rewrite N_ascii_embedding by lia. lia.
Qed.

Lemma isDigit_digitChar (u : Z) : 0 <= u < 10 → isDigit (digitChar u) = true.
Proof.
  intros Hu. unfold isDigit. rewrite code_digitChar by done.
  apply andb_true_intro; split; apply Z.leb_le; lia.
Qed.

Lemma digitVal_digitChar (u : Z) : 0 <= u < 10 → digitVal (digitChar u) = u.
Proof. intros Hu. unfold digitVal. rewrite code_digitChar by done. lia. Qed.

(** A digit is no space, no newline and no sign. *)
Lemma isDigit_code (c : ascii) : isDigit c = true → 48 <= code c <= 57.
Proof. unfold isDigit. intros [?%Z.leb_le ?%Z.leb_le]%andb_prop. lia. Qed.

(** [SkipSpace] leaves alone an input that starts with an ASCII byte
    other than a space or a newline. *)
Lemma SkipSpace_ascii (c : ascii) (s : string) :
  33 <= code c < 128 → SkipSpace (String c s) = Some (String c s).
Proof.
  intros Hc. cbn [SkipSpace].
  replace (code c =? 10) with false by (symmetry; apply Z.eqb_neq; lia).
  unfold isSpace1, isSpace2, isSpace3.
  replace (9 <=? code c) with true by (symmetry; apply Z.leb_le; lia).
  replace (code c <=? 13) with false by (symmetry; apply Z.leb_gt; lia).
  replace (code c =? 32) with false by (symmetry; apply Z.eqb_neq; lia).
  replace (code c =? 194) with false by (symmetry; apply Z.eqb_neq; lia).
  replace (code c =? 225) with false by (symmetry; apply Z.eqb_neq; lia).
  replace (code c =? 226) with false by (symmetry; apply Z.eqb_neq; lia).
  replace (code c =? 227) with false by (symmetry; apply Z.eqb_neq; lia).
  cbn. destruct s as [|c2 [|c3 s3]]; reflexivity.
Qed.

(** The digit loop stops at the first byte that is no digit. *)
Lemma scanDigits_app (ds : string) (c : ascii) (rest : string) :
  allDigits ds = true → isDigit c = false →
  scanDigits (ds +:+ String c rest) = (ds, String c rest).
Proof.
  intros Hds Hc. induction ds as [|x ds IH].
  - rewrite app_Empty. cbn. by rewrite Hc.
  - cbn in Hds. apply andb_prop in Hds as [Hx Hds]. rewrite app_String.
    cbn [scanDigits]. rewrite Hx, (IH Hds). reflexivity.
Qed.

Lemma digitsVal_snoc (ds : string) (c : ascii) (acc v : Z) :
  digitsVal acc ds = Some v → isDigit c = true →
  digitsVal acc (ds +:+ String c EmptyString) = Some (v * 10 + digitVal c).
Proof.
  revert acc. induction ds as [|x ds IH]; intros acc Hv Hc.
  - cbn in Hv. injection Hv as <-. rewrite app_Empty. cbn. by rewrite Hc.
  - rewrite app_String. cbn [digitsVal] in *.
    destruct (isDigit x); [|discriminate]. by apply IH.
Qed.

Lemma allDigits_snoc (ds : string) (c : ascii) :
  allDigits ds = true → isDigit c = true →
  allDigits (ds +:+ String c EmptyString) = true.
Proof.
  intros Hds Hc. induction ds as [|x ds IH].
  - rewrite app_Empty. cbn. by rewrite Hc.
  - cbn in Hds. apply andb_prop in Hds as [Hx Hds]. rewrite app_String.
    cbn [allDigits]. by rewrite Hx, IH.
Qed.

(** Writing into a buffer that already holds [buf] puts the digits in
    front of it. *)
Lemma fmtUint_buf (room : nat) (u : Z) (buf : string) :
  fmtUint room u buf = fmtUint room u EmptyString +:+ buf.
Proof.
  revert u buf. induction room as [|room IH]; intros u buf; cbn.
  - reflexivity.
  - destruct (u <? 10); [reflexivity|].
    rewrite (IH _ (String _ buf)), (IH _ (String _ EmptyString)).
    by rewrite app_assoc.
Qed.

(** The digits written for [u] are decimal digits, at least one, and
    their value is [u], as long as the buffer has room for them. *)
Lemma fmtUint_digits (room : nat) (u : Z) :
  (0 < room)%nat → 0 <= u < 10 ^ Z.of_nat room →
  let ds := fmtUint room u EmptyString in
  allDigits ds = true ∧ ds ≠ EmptyString ∧ digitsVal 0 ds = Some u.
Proof.
  revert u. induction room as [|room IH]; intros u Hroom Hu.
  - lia.
  - cbn [fmtUint]. destruct (Z.ltb_spec u 10) as [Hlt|Hge].
    + cbn. rewrite isDigit_digitChar, digitVal_digitChar by lia. done.
    + rewrite fmtUint_buf.
      assert (0 <= u / 10 < 10 ^ Z.of_nat room) as Hq.
      { rewrite Nat2Z.inj_succ, Z.pow_succ_r in Hu by lia.
        split; [apply Z.div_pos; lia|apply Z.div_lt_upper_bound; lia]. }
      assert (0 < room)%nat as Hroom'.
      { destruct room; [cbn in Hu; lia|lia]. }
      destruct (IH _ Hroom' Hq) as (Hall & Hne & Hval).
      pose proof (Z.mod_pos_bound u 10 ltac:(lia)) as Hm.
      split; [|split].
      * apply allDigits_snoc; [done|]. by apply isDigit_digitChar.
      * destruct (fmtUint room (u / 10) EmptyString); [done|].
        rewrite app_String. discriminate.
      * rewrite (digitsVal_snoc _ _ _ _ Hval) by (by apply isDigit_digitChar).
        rewrite digitVal_digitChar by done. f_equal.
        pose proof (Z.div_mod u 10 ltac:(lia)). lia.
Qed.

Lemma ParseUint_digits (ds : string) (u : Z) :
  ds ≠ EmptyString → digitsVal 0 ds = Some u → u < 2 ^ 64 →
  ParseUint ds = Some u.
Proof.
  intros Hne Hval Hu. unfold ParseUint. destruct ds as [|c ds]; [done|].
  rewrite Hval. cbn. by rewrite (proj2 (Z.ltb_lt _ _) Hu).
Qed.

(** [scanInt] on an unsigned run of digits followed by a byte that is no
    digit. *)
Lemma scanInt_unsigned (ds : string) (u : Z) (c : ascii) (rest : string) :
  allDigits ds = true → ds ≠ EmptyString → digitsVal 0 ds = Some u →
  u < 2 ^ 63 → isDigit c = false →
  scanInt (ds +:+ String c rest) = Some (u, String c rest).
Proof.
  intros Hall Hne Hval Hu Hc. destruct ds as [|x ds]; [done|].
  assert (isDigit x = true) as Hx by (cbn in Hall; by apply andb_prop in Hall as [? _]).
  pose proof (isDigit_code _ Hx) as Hcode.
  unfold scanInt. rewrite app_String, SkipSpace_ascii by lia. cbn [mbind option_bind].
  assert (isSign x = false) as Hsign.
  { unfold isSign. apply orb_false_intro; apply Z.eqb_neq; lia. }
  unfold acceptSign. rewrite Hsign. rewrite <- app_String.
  rewrite scanDigits_app by done. rewrite app_Empty.
  unfold ParseInt.
  replace (code x =? 43) with false by (symmetry; apply Z.eqb_neq; lia).
  replace (code x =? 45) with false by (symmetry; apply Z.eqb_neq; lia).
  rewrite (ParseUint_digits _ u) by (done || lia). cbn [mbind option_bind].
  by rewrite (proj2 (Z.ltb_lt _ _) Hu).
Qed.

(** [scanInt] on a minus sign, a run of digits and a byte that is no
    digit. *)
Lemma scanInt_minus (ds : string) (u : Z) (c : ascii) (rest : string) :
  allDigits ds = true → ds ≠ EmptyString → digitsVal 0 ds = Some u →
  u <= 2 ^ 63 → isDigit c = false →
  scanInt (String "-" (ds +:+ String c rest)) = Some (- u, String c rest).
Proof.
  intros Hall Hne Hval Hu Hc.
  unfold scanInt. rewrite SkipSpace_ascii by (vm_compute; split; congruence).
  cbn [mbind option_bind]. unfold acceptSign.
  replace (isSign "-") with true by reflexivity.
  rewrite scanDigits_app by done.
  destruct ds as [|x ds]; [done|].
  rewrite app_String, app_Empty. unfold ParseInt.
  replace (code "-" =? 43) with false by reflexivity.
  replace (code "-" =? 45) with true by reflexivity.
  rewrite (ParseUint_digits _ u) by (done || lia). cbn [mbind option_bind].
  by rewrite (proj2 (Z.leb_le _ _) Hu).
Qed.

(** Scanning with ["%dd"] what [Sprintf("%dd", n)] printed gives [n]
    back, for every 64-bit [n]; what follows the [d] is not looked at. *)
Lemma Sscanf_dd_Sprintf_dd (n : Z) (rest : string) :
  - 2 ^ 63 <= n < 2 ^ 63 → Sscanf_dd (Sprintf_dd n +:+ rest) = Some n.
Proof.
  intros Hn. unfold Sprintf_dd, Sprintf_d.
  destruct (fmtUint_digits 20 (Z.abs n)) as (Hall & Hne & Hval); [lia|lia|].
  set (ds := fmtUint 20 (Z.abs n) EmptyString) in *.
  assert (isDigit "d" = false) as Hd by reflexivity.
  unfold Sscanf_dd. destruct (Z.ltb_spec n 0) as [Hneg|Hpos].
  - rewrite app_assoc, !app_String, app_Empty.
    rewrite SkipSpace_ascii by (vm_compute; split; congruence).
    cbn [mbind option_bind].
    rewrite (scanInt_minus ds (Z.abs n)) by (done || lia).
    cbn. f_equal. lia.
  - rewrite app_assoc, !app_String, app_Empty.
    destruct ds as [|x ds'] eqn:Eds; [done|].
    assert (isDigit x = true) as Hx by (cbn in Hall; by apply andb_prop in Hall as [? _]).
    pose proof (isDigit_code _ Hx) as Hcode.
    rewrite app_String, SkipSpace_ascii by lia. cbn [mbind option_bind].
    rewrite <- app_String.
    rewrite (scanInt_unsigned (String x ds') (Z.abs n)) by (done || lia).
    cbn. f_equal. lia.
Qed.

End GoFmtFacts.

(** ** The expiration codec *)

(** A printed duration is never the delete-marker literal. *)
Lemma Sprintf_dd_not_DeleteMarker (n : Z) :
  - 2 ^ 63 <= n < 2 ^ 63 → GoFmt.Sprintf_dd n ≠ "DeleteMarker".
Proof.
  intros Hn Heq.
  pose proof (GoFmtFacts.Sscanf_dd_Sprintf_dd n EmptyString Hn) as Hscan.
  rewrite GoFmtFacts.app_Empty_r, Heq in Hscan. vm_compute in Hscan. discriminate.
Qed.

(** [parseILMExpiration] on a printed duration takes the duration branch. *)
Lemma parseILMExpiration_Sprintf_dd (n : Z) :
  - 2 ^ 63 <= n < 2 ^ 63 → parseILMExpiration (GoFmt.Sprintf_dd n) = Spec.Days n.
Proof.
  intros Hn. unfold parseILMExpiration.
  rewrite bool_decide_eq_false_2 by (by apply Sprintf_dd_not_DeleteMarker).
  pose proof (GoFmtFacts.Sscanf_dd_Sprintf_dd n EmptyString Hn) as Hscan.
  rewrite GoFmtFacts.app_Empty_r in Hscan. by rewrite Hscan.
Qed.

(** C1, at n = 0: the string "0d" encodes to [Days 0], and the read side
    prints the empty string for it, not "0d". *)
Lemma C1_zero_days_not_restored :
  GoFmt.Sprintf_dd 0 = "0d"
  ∧ decodeExpiration (parseILMExpiration (GoFmt.Sprintf_dd 0)) ≠ GoFmt.Sprintf_dd 0.
Proof. split; [reflexivity|]. vm_compute. discriminate. Qed.

(** Above the range of [int] the scan fails with a range error, and the
    string, being no date either, encodes to the zero [Expiration]. *)
Example parseILMExpiration_out_of_range :
  parseILMExpiration "9223372036854775808d" = Expiration.zero.
Proof. reflexivity. Qed.

(** C1, amended: for every n with 1 <= n <= 2^63 - 1 (the positive range of
    Go's int), [parseILMExpiration] of the string "<n>d" is [Days n], and
    the read-side decoding of that value prints "<n>d" again. *)
Theorem C1_days_roundtrip (n : Z) :
  1 <= n < 2 ^ 63 →
  parseILMExpiration (GoFmt.Sprintf_dd n) = Spec.Days n
  ∧ decodeExpiration (parseILMExpiration (GoFmt.Sprintf_dd n)) = GoFmt.Sprintf_dd n.
Proof.
  intros Hn.
  rewrite parseILMExpiration_Sprintf_dd by lia. split; [reflexivity|].
  unfold decodeExpiration, Spec.Days. cbn.
  destruct (Z.eqb_spec n 0) as [->|_]; [lia|reflexivity].
Qed.

Lemma C1_days_roundtrip_witness :
  1 <= 5 < 2 ^ 63
  ∧ parseILMExpiration (GoFmt.Sprintf_dd 5) = Spec.Days 5
  ∧ decodeExpiration (parseILMExpiration (GoFmt.Sprintf_dd 5)) = GoFmt.Sprintf_dd 5.
Proof. split; [lia|]. apply (C1_days_roundtrip 5). lia. Defined.

(** C4, at the string "5days": it has none of the three accepted shapes, yet
    the scan with "%dd" stops after the [d] without looking at the rest, so
    [parseILMExpiration] returns [Days 5] and [validateILMExpiration]
    returns no diagnostic. *)
Theorem C4_trailing_text_accepted :
  Spec.acceptedShape "5days" = false
  ∧ parseILMExpiration "5days" = Spec.Days 5
  ∧ parseILMExpiration "5days" ≠ Expiration.zero
  ∧ validateILMExpiration "5days" = [].
Proof. repeat split; try reflexivity. vm_compute. discriminate. Qed.

(** C10: the string "0d" has the duration shape, the scan succeeds with 0,
    the resulting [Days 0] is the zero [Expiration] field for field, and
    [validateILMExpiration] rejects the string with the format error. *)
Theorem C10_zero_days_rejected :
  Spec.durationShape "0d" = true
  ∧ GoFmt.Sscanf_dd "0d" = Some 0
  ∧ Spec.Days 0 = Expiration.zero
  ∧ parseILMExpiration "0d" = Expiration.zero
  ∧ validateILMExpiration "0d" = [diag.Errorf expirationFormatError].
Proof. repeat split; reflexivity. Qed.

(** ** The transition and filter codecs *)

(** The arms of [parseILMTransition] by what the scan of [days] and the
    parse of [date] return. *)
Lemma parseILMTransition_cases :
  parseILMTransition [] = Transition.zero
  ∧ ∀ (t : TransitionData.t) (rest : list TransitionData.t),
      (∀ n, GoFmt.Sscanf_dd (TransitionData.days t) = Some n →
            parseILMTransition (t :: rest)
            = {| Transition.Date := GoTime.zero;
                 Transition.StorageClass := TransitionData.storage_class t;
                 Transition.Days := n |})
      ∧ (∀ dt, GoFmt.Sscanf_dd (TransitionData.days t) = None →
               GoTime.Parse (TransitionData.date t) = Some dt →
               parseILMTransition (t :: rest)
               = {| Transition.Date := dt;
                    Transition.StorageClass := TransitionData.storage_class t;
                    Transition.Days := 0 |})
      ∧ (GoFmt.Sscanf_dd (TransitionData.days t) = None →
         GoTime.Parse (TransitionData.date t) = None →
         parseILMTransition (t :: rest) = Transition.zero).
Proof.
  split; [reflexivity|]. intros t rest. cbn [parseILMTransition].
  split; [|split].
  - intros n Hdays. by rewrite Hdays.
  - intros dt Hdays Hdate. by rewrite Hdays, Hdate.
  - intros Hdays Hdate. by rewrite Hdays, Hdate.
Qed.

(** C8, at a [days] field with text after the duration token: "5days" is
    no duration token, yet the scan with "%dd" stops after the [d] without
    looking at the rest, so the encoder returns [Days 5] with the storage
    class.  Beside the date "2030-01-31" the date is never tried, where
    the claim has the failed duration followed by the date; beside an empty
    date the result is not the zero [Transition], where the claim has
    neither field parsing.  The empty list does encode to the zero
    [Transition]. *)
Theorem C8_days_with_trailing_text :
  parseILMTransition [] = Transition.zero
  ∧ Spec.durationShape (TransitionData.days Spec.byTrailing) = false
  ∧ GoTime.Parse (TransitionData.date Spec.byTrailing)
    = Some {| GoTime.year := 2030; GoTime.month := 1; GoTime.day := 31 |}
  ∧ parseILMTransition [Spec.byTrailing]
    = {| Transition.Date := GoTime.zero; Transition.StorageClass := "GLACIER";
         Transition.Days := 5 |}
  ∧ parseILMTransition [Spec.byTrailing]
    ≠ {| Transition.Date := {| GoTime.year := 2030; GoTime.month := 1; GoTime.day := 31 |};
         Transition.StorageClass := "GLACIER"; Transition.Days := 0 |}
  ∧ Spec.durationShape (TransitionData.days Spec.byTrailingNoDate) = false
  ∧ GoTime.Parse (TransitionData.date Spec.byTrailingNoDate) = None
  ∧ parseILMTransition [Spec.byTrailingNoDate]
    = {| Transition.Date := GoTime.zero; Transition.StorageClass := "GLACIER";
         Transition.Days := 5 |}
  ∧ parseILMTransition [Spec.byTrailingNoDate] ≠ Transition.zero.
Proof.
  repeat split; try reflexivity.
  - vm_compute. discriminate.
  - vm_compute. discriminate.
Qed.

(** The tags written for a map are its entries, each once. *)
Lemma range_tags (o : MapRange) (tags : gmap string string) :
  let l := (λ kv, {| Tag.Key := kv.1; Tag.Value := kv.2 |}) <$> range o tags in
  length l = size tags
  ∧ ∀ k v, {| Tag.Key := k; Tag.Value := v |} ∈ l ↔ tags !! k = Some v.
Proof.
  cbn. split.
  - rewrite length_fmap, (Permutation_length (range_perm o tags)).
    by rewrite length_map_to_list.
  - intros k v. rewrite list_elem_of_fmap. split.
    + intros ([k' v'] & Heq & Hin). cbn in Heq. injection Heq as -> ->.
      rewrite (range_perm o tags) in Hin. by apply elem_of_map_to_list in Hin.
    + intros Hkv. exists (k, v). split; [reflexivity|].
      rewrite (range_perm o tags). by apply elem_of_map_to_list.
Qed.

(** C7: whatever the order in which the tag map is ranged over, a non-empty
    tag map (the prefix may be empty) gives the compound filter with the
    prefix and exactly the entries of the map as tags, and an empty tag map
    gives the simple filter with the prefix; so the AND part has tags
    exactly when the map is non-empty. *)
Theorem C7_filter_encoding (o : MapRange) (prefix : string) (tags : gmap string string) :
  (tags ≠ ∅ →
     ∃ l, encodeFilter o prefix tags = Spec.Compound prefix l
          ∧ l ≠ []
          ∧ length l = size tags
          ∧ ∀ k v, {| Tag.Key := k; Tag.Value := v |} ∈ l ↔ tags !! k = Some v)
  ∧ (tags = ∅ → encodeFilter o prefix tags = Spec.Simple prefix)
  ∧ (And.Tags (Filter.And (encodeFilter o prefix tags)) ≠ [] ↔ tags ≠ ∅).
Proof.
  assert (tags = ∅ → encodeFilter o prefix tags = Spec.Simple prefix) as Hempty.
  { intros ->. unfold encodeFilter. rewrite map_size_empty. reflexivity. }
  assert (tags ≠ ∅ →
     ∃ l, encodeFilter o prefix tags = Spec.Compound prefix l ∧ l ≠ []
          ∧ length l = size tags
          ∧ ∀ k v, {| Tag.Key := k; Tag.Value := v |} ∈ l ↔ tags !! k = Some v)
    as Hfull.
  { intros Hne. pose proof (range_tags o tags) as [Hlen Hin].
    assert (0 < size tags)%nat as Hsize.
    { destruct (size tags) eqn:E; [by apply map_size_empty_iff in E|lia]. }
    eexists. split; [|split; [|split; [exact Hlen|exact Hin]]].
    - unfold encodeFilter. by rewrite bool_decide_eq_true_2.
    - intros Hnil. rewrite Hnil in Hlen. cbn in Hlen. lia. }
  split; [exact Hfull|split; [exact Hempty|]]. split.
  - intros Htags ->. apply Htags. by rewrite Hempty.
  - intros Hne. destruct (Hfull Hne) as (l & -> & Hl & _). exact Hl.
Qed.

Lemma C7_filter_encoding_witness :
  (∃ l, encodeFilter defaultRange EmptyString {[ "k" := "v" ]} = Spec.Compound EmptyString l
        ∧ l ≠ []
        ∧ length l = size ({[ "k" := "v" ]} : gmap string string)
        ∧ ∀ k v, {| Tag.Key := k; Tag.Value := v |} ∈ l
                 ↔ ({[ "k" := "v" ]} : gmap string string) !! k = Some v)
  ∧ encodeFilter defaultRange "logs/" ∅ = Spec.Simple "logs/".
Proof.
  split.
  - apply (C7_filter_encoding defaultRange EmptyString {[ "k" := "v" ]}).
    apply map_non_empty_singleton.
  - apply (C7_filter_encoding defaultRange "logs/" ∅). reflexivity.
Defined.

(** C6, at the prefix "logs/": the compound filter with that prefix and no
    tags decodes to the empty prefix, the simple filter to "logs/". *)
Lemma C6_compound_prefix_not_read :
  decodeFilter (Spec.Compound "logs/" []) = (EmptyString, ∅)
  ∧ decodeFilter (Spec.Simple "logs/") = ("logs/", ∅)
  ∧ decodeFilter (Spec.Compound "logs/" []) ≠ decodeFilter (Spec.Simple "logs/").
Proof. repeat split; try reflexivity. vm_compute. discriminate. Qed.

(** C6, amended: for every prefix p, the compound filter with prefix p and
    an empty tag list decodes to the filter's own prefix, which is empty, and
    an empty tag mapping (the prefix of the AND part is read only when the
    tag list is non-empty); that is the decoding of the simple filter with
    prefix p exactly when p is empty. *)
Theorem C6_compound_without_tags (p : string) :
  decodeFilter (Spec.Compound p []) = (EmptyString, ∅)
  ∧ decodeFilter (Spec.Simple p) = (p, ∅)
  ∧ (decodeFilter (Spec.Compound p []) = decodeFilter (Spec.Simple p) ↔ p = EmptyString).
Proof.
  assert (decodeFilter (Spec.Compound p []) = (EmptyString, ∅)) as Hc by reflexivity.
  assert (decodeFilter (Spec.Simple p) = (p, ∅)) as Hs by reflexivity.
  split; [exact Hc|split; [exact Hs|]]. rewrite Hc, Hs. split.
  - intros Heq. by injection Heq as <-.
  - by intros ->.
Qed.

(** C9: for the input rule r1 (id "r1", expiration "5d", filter "tmp/", no
    tags, nothing else set), the rule built for the store has expiration
    [Days 5], the simple filter with prefix "tmp/" and status "Enabled", and
    decoding it gives r1 with the transition list empty, both noncurrent
    day counts 0, status "Enabled" and no tags. *)
Theorem C9_end_to_end_r1 (o : MapRange) (st : string) :
  let built := buildRule o (Spec.r1 st) in
  Rule.Expiration built = Spec.Days 5
  ∧ Rule.RuleFilter built = Spec.Simple "tmp/"
  ∧ Rule.Status built = "Enabled"
  ∧ decodeRule built
    = {| RuleData.id := "r1"; RuleData.expiration := "5d"; RuleData.transition := [];
         RuleData.noncurrent_version_expiration_days := 0;
         RuleData.noncurrent_version_transition_days := 0;
         RuleData.status := "Enabled"; RuleData.filter := "tmp/";
         RuleData.tags := ∅ |}.
Proof. cbn zeta. repeat split; reflexivity. Qed.

(** ** The operations *)

Section OperationFacts.
Context {Store : Type} `{!S3Client Store}.

(** An update is a read of whatever the optional create left behind. *)
Lemma minioUpdateILMPolicy_reads (o : MapRange) (hasChange : bool)
    (c : Store) (d : ResourceData.t) :
  ∃ c1 d1, minioUpdateILMPolicy o hasChange c d = minioReadILMPolicy c1 d1.
Proof.
  unfold minioUpdateILMPolicy. destruct hasChange.
  - destruct (minioCreateILMPolicy o c d) as [[c1 d1] ?]. by exists c1, d1.
  - by exists c, d.
Qed.

(** C2: when the store's get-lifecycle call on the resource's identity
    returns an error, the read returns no diagnostics, and the resource
    data it leaves is the old one with the identity set to the empty
    string: no rule data is written and the store's error is not passed
    on. *)
Theorem C2_read_failure_is_absence (c c' : Store) (d : ResourceData.t) (err : error) :
  GetBucketLifecycle c (ResourceData.Id d) = (c', inr err) →
  minioReadILMPolicy c d = (c', ResourceData.SetId d EmptyString, [])
  ∧ ResourceData.Id (ResourceData.SetId d EmptyString) = EmptyString
  ∧ ResourceData.rule (ResourceData.SetId d EmptyString) = ResourceData.rule d.
Proof.
  intros Hget. unfold minioReadILMPolicy. rewrite Hget. done.
Qed.

(** C5: a delete writes the empty rule list to the bucket named by the
    resource's identity.  When the write succeeds the identity is cleared
    and no diagnostic is returned; when it fails the diagnostic is the
    store error tagged with that bucket name and the resource data is
    left as it was. *)
Theorem C5_delete_outcomes (c c' : Store) (d : ResourceData.t) :
  (SetBucketLifecycle c (ResourceData.Id d) NewConfiguration = (c', None) →
     minioDeleteILMPolicy c d = (c', ResourceData.SetId d EmptyString, [])
     ∧ ResourceData.Id (ResourceData.SetId d EmptyString) = EmptyString)
  ∧ (∀ err,
       SetBucketLifecycle c (ResourceData.Id d) NewConfiguration = (c', Some err) →
       minioDeleteILMPolicy c d
       = (c', d,
          [diag.NewResourceError "deleting lifecycle configuration failed"
             (ResourceData.Id d) err])).
Proof.
  unfold minioDeleteILMPolicy. split.
  - intros Hset. by rewrite Hset.
  - intros err Hset. by rewrite Hset.
Qed.

End OperationFacts.

Lemma C2_read_failure_is_absence_witness :
  minioReadILMPolicy (∅ : memStore) Spec.d1
  = (∅, ResourceData.SetId Spec.d1 EmptyString, [])
  ∧ ResourceData.Id (ResourceData.SetId Spec.d1 EmptyString) = EmptyString
  ∧ ResourceData.rule (ResourceData.SetId Spec.d1 EmptyString) = ResourceData.rule Spec.d1.
Proof.
  apply (C2_read_failure_is_absence (∅ : memStore) ∅ Spec.d1 "NoSuchBucket").
  reflexivity.
Defined.

Lemma C5_delete_outcomes_witness :
  (minioDeleteILMPolicy Spec.openStore Spec.d1
   = (Spec.openStore, ResourceData.SetId Spec.d1 EmptyString, [])
   ∧ ResourceData.Id (ResourceData.SetId Spec.d1 EmptyString) = EmptyString)
  ∧ minioDeleteILMPolicy Spec.lockedStore Spec.d1
    = (Spec.lockedStore, Spec.d1,
       [diag.NewResourceError "deleting lifecycle configuration failed" "b1" "AccessDenied"]).
Proof.
  split.
  - apply (C5_delete_outcomes Spec.openStore Spec.openStore Spec.d1). reflexivity.
  - apply (C5_delete_outcomes Spec.lockedStore Spec.lockedStore Spec.d1). reflexivity.
Defined.

(** C3, at a store that refuses the write: with the rule inputs changed,
    the create operation returns the store error tagged with the bucket,
    while the update operation, which runs the same create and drops what
    it returns, goes on to its read and returns no diagnostic. *)
Theorem C3_update_drops_write_error :
  minioCreateILMPolicy defaultRange Spec.lockedStore Spec.d1
  = (Spec.lockedStore, Spec.d1,
     [diag.NewResourceError "creating bucket lifecycle failed" "b1" "AccessDenied"])
  ∧ minioUpdateILMPolicy defaultRange true Spec.lockedStore Spec.d1
    = (Spec.lockedStore, ResourceData.Set_rule Spec.d1 [], []).
Proof. split; reflexivity. Qed.

Module GoFmtRange.
Import GoFmt.

Lemma digitsVal_nonneg (s : string) (acc v : Z) :
  0 <= acc → digitsVal acc s = Some v → 0 <= v.
Proof.
  revert acc. induction s as [|c s IH]; intros acc Hacc Hv; cbn in Hv.
  - by injection Hv as <-.
  - destruct (isDigit c) eqn:Hc; [|discriminate].
    apply GoFmtFacts.isDigit_code in Hc. apply (IH (acc * 10 + digitVal c)); [|done].
    unfold digitVal. lia.
Qed.

Lemma ParseUint_nonneg (s : string) (u : Z) : ParseUint s = Some u → 0 <= u.
Proof.
  unfold ParseUint. destruct s as [|c s]; [discriminate|].
  destruct (digitsVal 0 (String c s)) as [un|] eqn:Hun; [|discriminate].
  cbn. destruct (un <? 2 ^ 64); [|discriminate]. intros [= <-].
  by apply (digitsVal_nonneg (String c s) 0 un).
Qed.

(** What [ParseInt] returns fits a 64-bit signed integer. *)
Lemma ParseInt_range (s : string) (i : Z) :
  ParseInt s = Some i → - 2 ^ 63 <= i < 2 ^ 63.
Proof.
  unfold ParseInt. destruct s as [|c s]; [discriminate|].
  destruct (code c =? 43); [|destruct (code c =? 45)].
  - destruct (ParseUint s) as [un|] eqn:Hun; [|discriminate]. cbn.
    apply ParseUint_nonneg in Hun.
    destruct (Z.ltb_spec un (2 ^ 63)); [|discriminate]. intros [= <-]. lia.
  - destruct (ParseUint s) as [un|] eqn:Hun; [|discriminate]. cbn.
    apply ParseUint_nonneg in Hun.
    destruct (Z.leb_spec un (2 ^ 63)); [|discriminate]. intros [= <-]. lia.
  - destruct (ParseUint (String c s)) as [un|] eqn:Hun; [|discriminate]. cbn.
    apply ParseUint_nonneg in Hun.
    destruct (Z.ltb_spec un (2 ^ 63)); [|discriminate]. intros [= <-]. lia.
Qed.

Lemma scanInt_range (s rest : string) (i : Z) :
  scanInt s = Some (i, rest) → - 2 ^ 63 <= i < 2 ^ 63.
Proof.
  unfold scanInt. destruct (SkipSpace s) as [s0|]; [|discriminate]. cbn.
  destruct s0 as [|c s0]; [discriminate|].
  destruct (acceptSign (String c s0)) as [sg s1].
  destruct (scanDigits s1) as [ds rest'].
  destruct ds as [|x ds]; [discriminate|].
  destruct (ParseInt (sg +:+ String x ds)) as [j|] eqn:Hj; [|discriminate].
  cbn. intros [= <- _]. by apply ParseInt_range in Hj.
Qed.

(** A day count that [Sscanf] stores fits Go's [int]. *)
Lemma Sscanf_dd_range (s : string) (n : Z) :
  Sscanf_dd s = Some n → - 2 ^ 63 <= n < 2 ^ 63.
Proof.
  unfold Sscanf_dd. destruct (SkipSpace s) as [s0|]; [|discriminate]. cbn.
  destruct (scanInt s0) as [[i rest]|] eqn:Hi; [|discriminate]. cbn.
  apply scanInt_range in Hi.
  destruct rest as [|c rest]; [discriminate|].
  destruct (code c =? 100); [|discriminate]. by intros [= <-].
Qed.

(** The scan of the empty string fails (end of input). *)
Lemma Sscanf_dd_empty : Sscanf_dd EmptyString = None.
Proof. reflexivity. Qed.

End GoFmtRange.

(** ** Printing what was parsed as a date *)

Module GoTimeFacts.
Import GoFmt GoTime.

Lemma code_inj (c1 c2 : ascii) : code c1 = code c2 → c1 = c2.
Proof.
  unfold code. intros H%N2Z.inj.
  by rewrite <- (ascii_N_embedding c1), <- (ascii_N_embedding c2), H.
Qed.

Lemma digitChar_digitVal (c : ascii) : isDigit c = true → digitChar (digitVal c) = c.
Proof.
  intros Hc%GoFmtFacts.isDigit_code. apply code_inj.
  rewrite GoFmtFacts.code_digitChar; unfold digitVal; lia.
Qed.

Lemma digitVal_range (c : ascii) : isDigit c = true → 0 <= digitVal c < 10.
Proof. intros Hc%GoFmtFacts.isDigit_code. unfold digitVal. lia. Qed.

(** A property checked on the ten digits holds of every digit. *)
Lemma digit_table (P : Z → bool) :
  forallb P (seqZ 0 10) = true → ∀ a, 0 <= a < 10 → P a = true.
Proof.
  intros Hall a Ha. apply Is_true_true, forallb_True in Hall.
  rewrite Forall_forall in Hall. apply Is_true_true, (Hall a).
  apply elem_of_seqZ. lia.
Qed.

(** [appendInt] at width 2 prints a two-digit number as its two digits. *)
Lemma appendInt_2 (a b : Z) :
  0 <= a < 10 → 0 <= b < 10 →
  appendInt (a * 10 + b) 2 = String (digitChar a) (String (digitChar b) EmptyString).
Proof.
  intros Ha Hb.
  pose proof (digit_table (λ a, forallb (λ b,
    bool_decide (appendInt (a * 10 + b) 2
                 = String (digitChar a) (String (digitChar b) EmptyString)))
    (seqZ 0 10))) as Htab.
  specialize (Htab ltac:(vm_compute; reflexivity) a Ha). cbn beta in Htab.
  pose proof (digit_table _ Htab b Hb) as Hab. cbn beta in Hab.
  by apply bool_decide_eq_true_1 in Hab.
Qed.

(** [appendInt] at width 4 prints a four-digit number as its four digits,
    leading zeros included. *)
Lemma appendInt_4 (a b c d : Z) :
  0 <= a < 10 → 0 <= b < 10 → 0 <= c < 10 → 0 <= d < 10 →
  appendInt ((a * 10 + b) * 100 + (c * 10 + d)) 4
  = String (digitChar a) (String (digitChar b)
      (String (digitChar c) (String (digitChar d) EmptyString))).
Proof.
  intros Ha Hb Hc Hd.
  pose proof (digit_table (λ a, forallb (λ b, forallb (λ c, forallb (λ d,
    bool_decide (appendInt ((a * 10 + b) * 100 + (c * 10 + d)) 4
                 = String (digitChar a) (String (digitChar b)
                     (String (digitChar c) (String (digitChar d) EmptyString)))))
    (seqZ 0 10)) (seqZ 0 10)) (seqZ 0 10))) as Htab.
  specialize (Htab ltac:(vm_compute; reflexivity) a Ha). cbn beta in Htab.
  pose proof (digit_table _ Htab b Hb) as Hab. cbn beta in Hab.
  pose proof (digit_table _ Hab c Hc) as Habc. cbn beta in Habc.
  pose proof (digit_table _ Habc d Hd) as Habcd. cbn beta in Habcd.
  by apply bool_decide_eq_true_1 in Habcd.
Qed.

(** The shape of a string that [Parse] accepts: ten bytes, digits and two
    dashes, and the fields of the date are the numbers written. *)
Lemma Parse_Some (s : string) (t : Time) :
  Parse s = Some t →
  ∃ y1 y2 y3 y4 m1 m2 d1 d2,
    s = String y1 (String y2 (String y3 (String y4 (String "-"
          (String m1 (String m2 (String "-" (String d1 (String d2 EmptyString)))))))))
    ∧ isDigit y1 = true ∧ isDigit y2 = true ∧ isDigit y3 = true ∧ isDigit y4 = true
    ∧ isDigit m1 = true ∧ isDigit m2 = true ∧ isDigit d1 = true ∧ isDigit d2 = true
    ∧ t = {| year := num2 y1 y2 * 100 + num2 y3 y4;
             month := num2 m1 m2; day := num2 d1 d2 |}
    ∧ 1 <= month t <= 12 ∧ 1 <= day t <= daysIn (month t) (year t).
Proof.
  unfold Parse.
  destruct s as [|y1 [|y2 [|y3 [|y4 [|h1 [|m1 [|m2 [|h2 [|d1 [|d2 [|x s]]]]]]]]]]];
    try discriminate.
  destruct (isDigit y1) eqn:Hy1; [|discriminate].
  destruct (isDigit y2) eqn:Hy2; [|discriminate].
  destruct (isDigit y3) eqn:Hy3; [|discriminate].
  destruct (isDigit y4) eqn:Hy4; [|discriminate].
  destruct (Z.eqb_spec (code h1) 45) as [Hh1|]; [|discriminate].
  destruct (isDigit m1) eqn:Hm1; [|discriminate].
  destruct (isDigit m2) eqn:Hm2; [|discriminate].
  destruct (Z.eqb_spec (code h2) 45) as [Hh2|]; [|discriminate].
  destruct (isDigit d1) eqn:Hd1; [|discriminate].
  destruct (isDigit d2) eqn:Hd2; [|discriminate].
  cbn [andb]. cbv zeta.
  destruct (Z.leb_spec (num2 m1 m2) 0); [discriminate|].
  destruct (Z.ltb_spec 12 (num2 m1 m2)); [discriminate|].
  cbn [orb].
  destruct (Z.ltb_spec (num2 d1 d2) 1); [discriminate|].
  destruct (Z.ltb_spec (daysIn (num2 m1 m2) (num2 y1 y2 * 100 + num2 y3 y4)) (num2 d1 d2));
    [discriminate|].
  cbn [orb]. intros [= <-].
  assert (h1 = "-"%char) as -> by (by apply code_inj).
  assert (h2 = "-"%char) as -> by (by apply code_inj).
  exists y1, y2, y3, y4, m1, m2, d1, d2. cbn [year month day].
  repeat split; (done || lia).
Qed.

(** [Format] prints back the string that [Parse] read. *)
Lemma Format_Parse (s : string) (t : Time) : Parse s = Some t → Format t = s.
Proof.
  intros (y1 & y2 & y3 & y4 & m1 & m2 & d1 & d2 & -> & Hy1 & Hy2 & Hy3 & Hy4
          & Hm1 & Hm2 & Hd1 & Hd2 & -> & _)%Parse_Some.
  unfold Format, num2. cbn [year month day].
  rewrite appendInt_4 by (by apply digitVal_range).
  rewrite !appendInt_2 by (by apply digitVal_range).
  rewrite !digitChar_digitVal by done. reflexivity.
Qed.

(** A string that [Parse] accepts is no duration for the ["%dd"] scan:
    after the four digits of the year comes a dash, not the letter [d]. *)
Lemma Sscanf_dd_date (s : string) (t : Time) : Parse s = Some t → Sscanf_dd s = None.
Proof.
  intros (y1 & y2 & y3 & y4 & m1 & m2 & d1 & d2 & -> & Hy1 & Hy2 & Hy3 & Hy4 & _)%Parse_Some.
  pose proof (GoFmtFacts.isDigit_code _ Hy1) as Hc1.
  pose proof (digitVal_range _ Hy1). pose proof (digitVal_range _ Hy2).
  pose proof (digitVal_range _ Hy3). pose proof (digitVal_range _ Hy4).
  unfold Sscanf_dd. rewrite GoFmtFacts.SkipSpace_ascii by lia. cbn [mbind option_bind].
  set (rest := String m1 (String m2 (String "-" (String d1 (String d2 EmptyString))))).
  change (String y1 (String y2 (String y3 (String y4 (String "-" rest)))))
    with (String y1 (String y2 (String y3 (String y4 EmptyString))) +:+ String "-" rest).
  rewrite (GoFmtFacts.scanInt_unsigned _
             (((digitVal y1 * 10 + digitVal y2) * 10 + digitVal y3) * 10 + digitVal y4)).
  - reflexivity.
  - cbn. by rewrite Hy1, Hy2, Hy3, Hy4.
  - discriminate.
  - cbn. rewrite Hy1, Hy2, Hy3, Hy4. f_equal.
  - lia.
  - reflexivity.
Qed.

(** A string that [Parse] accepts is not the delete-marker literal. *)
Lemma Parse_not_DeleteMarker (s : string) (t : Time) :
  Parse s = Some t → s ≠ "DeleteMarker".
Proof. intros Hs ->. vm_compute in Hs. discriminate. Qed.

End GoTimeFacts.

(** ** More on the expiration codec *)

Lemma Sscanf_dd_not_DeleteMarker (s : string) (n : Z) :
  GoFmt.Sscanf_dd s = Some n → s ≠ "DeleteMarker".
Proof. intros Hs ->. vm_compute in Hs. discriminate. Qed.

Lemma parseILMExpiration_scanned (s : string) (n : Z) :
  GoFmt.Sscanf_dd s = Some n → parseILMExpiration s = Spec.Days n.
Proof.
  intros Hs. unfold parseILMExpiration.
  rewrite bool_decide_eq_false_2 by (by eapply Sscanf_dd_not_DeleteMarker).
  by rewrite Hs.
Qed.

Lemma parseILMExpiration_dated (s : string) (d : GoTime.Time) :
  GoTime.Parse s = Some d → parseILMExpiration s = Spec.Date d.
Proof.
  intros Hs. unfold parseILMExpiration.
  rewrite bool_decide_eq_false_2 by (by eapply GoTimeFacts.Parse_not_DeleteMarker).
  by rewrite (GoTimeFacts.Sscanf_dd_date s d), Hs.
Qed.

Lemma decodeExpiration_Days (n : Z) :
  n ≠ 0 → decodeExpiration (Spec.Days n) = GoFmt.Sprintf_dd n.
Proof.
  intros Hn. unfold decodeExpiration, Spec.Days. cbn.
  by destruct (Z.eqb_spec n 0).
Qed.

Lemma decodeExpiration_Date (d : GoTime.Time) :
  d ≠ GoTime.zero → decodeExpiration (Spec.Date d) = GoTime.Format d.
Proof.
  intros Hd. unfold decodeExpiration, Spec.Date, Expiration.IsNull,
    Expiration.IsDaysNull, Expiration.IsDateNull, GoTime.IsZero. cbn.
  by rewrite bool_decide_eq_false_2.
Qed.

Lemma validate_Days (s : string) (n : Z) :
  parseILMExpiration s = Spec.Days n → n ≠ 0 → validateILMExpiration s = [].
Proof.
  intros Hs Hn. unfold validateILMExpiration. rewrite Hs.
  rewrite bool_decide_eq_false_2; [done|].
  unfold Spec.Days, Expiration.zero. intros [= Heq]. lia.
Qed.

Lemma validate_Date (s : string) (d : GoTime.Time) :
  parseILMExpiration s = Spec.Date d → d ≠ GoTime.zero → validateILMExpiration s = [].
Proof.
  intros Hs Hd. unfold validateILMExpiration. rewrite Hs.
  rewrite bool_decide_eq_false_2; [done|].
  unfold Spec.Date, Expiration.zero. intros [= Heq]. by apply Hd.
Qed.

(** Encoding what the read side prints for an encoded string gives the
    same [Expiration]. *)
Lemma parseILMExpiration_decode_fixed (s : string) :
  parseILMExpiration (decodeExpiration (parseILMExpiration s)) = parseILMExpiration s.
Proof.
  destruct (decide (s = "DeleteMarker")) as [->|Hdm]; [reflexivity|].
  destruct (GoFmt.Sscanf_dd s) as [n|] eqn:Hscan.
  - rewrite (parseILMExpiration_scanned s n Hscan).
    destruct (decide (n = 0)) as [->|Hn]; [reflexivity|].
    rewrite decodeExpiration_Days by done.
    apply parseILMExpiration_Sprintf_dd. by apply (GoFmtRange.Sscanf_dd_range s).
  - destruct (GoTime.Parse s) as [d|] eqn:Hdate.
    + rewrite (parseILMExpiration_dated s d Hdate).
      destruct (decide (d = GoTime.zero)) as [->|Hd]; [reflexivity|].
      rewrite decodeExpiration_Date by done.
      rewrite (GoTimeFacts.Format_Parse s d Hdate).
      by apply parseILMExpiration_dated.
    + unfold parseILMExpiration at 2 3.
      rewrite (bool_decide_eq_false_2 _ Hdm), Hscan, Hdate. reflexivity.
Qed.

(** X1: for every non-zero 64-bit n, negative ones included, and every
    text [rest], the string "<n>d" followed by [rest] encodes to [Days n],
    passes validation, and is read back as "<n>d": what follows the
    duration token is dropped. *)
Theorem duration_prefix_accepted (n : Z) (rest : string) :
  - 2 ^ 63 <= n < 2 ^ 63 → n ≠ 0 →
  parseILMExpiration (GoFmt.Sprintf_dd n +:+ rest) = Spec.Days n
  ∧ validateILMExpiration (GoFmt.Sprintf_dd n +:+ rest) = []
  ∧ decodeExpiration (parseILMExpiration (GoFmt.Sprintf_dd n +:+ rest))
    = GoFmt.Sprintf_dd n.
Proof.
  intros Hn Hn0.
  pose proof (parseILMExpiration_scanned _ _
                (GoFmtFacts.Sscanf_dd_Sprintf_dd n rest Hn)) as Hparse.
  split; [exact Hparse|]. split.
  - by apply (validate_Days _ n).
  - rewrite Hparse. by apply decodeExpiration_Days.
Qed.

Lemma duration_prefix_accepted_witness :
  parseILMExpiration (GoFmt.Sprintf_dd (-7) +:+ " days") = Spec.Days (-7)
  ∧ validateILMExpiration (GoFmt.Sprintf_dd (-7) +:+ " days") = []
  ∧ decodeExpiration (parseILMExpiration (GoFmt.Sprintf_dd (-7) +:+ " days"))
    = GoFmt.Sprintf_dd (-7).
Proof. apply (duration_prefix_accepted (-7) " days"); lia. Defined.

(** X2: every string that [time.Parse] accepts with layout "2006-01-02",
    other than the zero date "0001-01-01", encodes to the [Date] variant
    with that date, passes validation, and is read back unchanged. *)
Theorem date_roundtrip (s : string) (d : GoTime.Time) :
  GoTime.Parse s = Some d → d ≠ GoTime.zero →
  parseILMExpiration s = Spec.Date d
  ∧ validateILMExpiration s = []
  ∧ decodeExpiration (parseILMExpiration s) = s.
Proof.
  intros Hs Hd. pose proof (parseILMExpiration_dated s d Hs) as Hparse.
  split; [exact Hparse|]. split.
  - by apply (validate_Date s d).
  - rewrite Hparse, decodeExpiration_Date by done.
    by apply GoTimeFacts.Format_Parse.
Qed.

Lemma date_roundtrip_witness :
  parseILMExpiration "2024-02-29"
  = Spec.Date {| GoTime.year := 2024; GoTime.month := 2; GoTime.day := 29 |}
  ∧ validateILMExpiration "2024-02-29" = []
  ∧ decodeExpiration (parseILMExpiration "2024-02-29") = "2024-02-29".
Proof.
  apply (date_roundtrip "2024-02-29"
           {| GoTime.year := 2024; GoTime.month := 2; GoTime.day := 29 |}).
  - reflexivity.
  - discriminate.
Defined.

(** X3: [validateILMExpiration] returns either nothing or the one format
    error, and it returns nothing exactly for the delete-marker literal, for
    a string whose "%dd" scan stores a non-zero number, and for a string
    that parses as a date other than the zero date. *)
Theorem validateILMExpiration_accepts_iff (s : string) :
  (validateILMExpiration s = []
   ∨ validateILMExpiration s = [diag.Errorf expirationFormatError])
  ∧ (validateILMExpiration s = []
     ↔ s = "DeleteMarker"
       ∨ (∃ n, GoFmt.Sscanf_dd s = Some n ∧ n ≠ 0)
       ∨ (∃ d, GoTime.Parse s = Some d ∧ d ≠ GoTime.zero)).
Proof.
  split.
  { unfold validateILMExpiration. case_bool_decide; auto. }
  split.
  - unfold validateILMExpiration, parseILMExpiration.
    destruct (decide (s = "DeleteMarker")) as [->|Hdm]; [by left|].
    rewrite (bool_decide_eq_false_2 _ Hdm).
    destruct (GoFmt.Sscanf_dd s) as [n|] eqn:Hscan.
    + case_bool_decide as Hz; [discriminate|]. intros _. right; left.
      exists n. split; [done|]. intros ->. by apply Hz.
    + destruct (GoTime.Parse s) as [d|] eqn:Hdate.
      * case_bool_decide as Hz; [discriminate|]. intros _. right; right.
        exists d. split; [done|]. intros ->. by apply Hz.
      * rewrite bool_decide_eq_true_2 by done. discriminate.
  - intros [->|[(n & Hscan & Hn)|(d & Hdate & Hd)]].
    + reflexivity.
    + by apply (validate_Days _ n); [apply parseILMExpiration_scanned|].
    + by apply (validate_Date s d); [apply parseILMExpiration_dated|].
Qed.

(** X4: for every string, the strings that fall to the zero value
    included, encoding, decoding and encoding again gives the first
    encoding, and decoding once more gives the first decoded string: after
    one write and read, neither the store value nor the local string
    changes any more. *)
Theorem expiration_codec_stable (s : string) :
  parseILMExpiration (decodeExpiration (parseILMExpiration s)) = parseILMExpiration s
  ∧ decodeExpiration (parseILMExpiration (decodeExpiration (parseILMExpiration s)))
    = decodeExpiration (parseILMExpiration s).
Proof.
  pose proof (parseILMExpiration_decode_fixed s) as Hfix.
  split; [exact Hfix|]. by rewrite Hfix.
Qed.

(** X5: whatever the string, the encoded [Expiration] has at most one of
    its three fields set, and its day count fits Go's [int]. *)
Theorem parseILMExpiration_one_shape (s : string) :
  let e := parseILMExpiration s in
  (Expiration.DeleteMarker e = true →
     Expiration.Days e = 0 ∧ Expiration.Date e = GoTime.zero)
  ∧ (Expiration.Days e ≠ 0 →
       Expiration.DeleteMarker e = false ∧ Expiration.Date e = GoTime.zero)
  ∧ (Expiration.Date e ≠ GoTime.zero →
       Expiration.DeleteMarker e = false ∧ Expiration.Days e = 0)
  ∧ - 2 ^ 63 <= Expiration.Days e < 2 ^ 63.
Proof.
  cbn zeta. unfold parseILMExpiration. case_bool_decide.
  { cbn. repeat split; (done || lia). }
  destruct (GoFmt.Sscanf_dd s) as [n|] eqn:Hscan.
  { apply GoFmtRange.Sscanf_dd_range in Hscan. cbn. repeat split; (done || lia). }
  destruct (GoTime.Parse s) as [d|]; cbn; repeat split; (done || lia).
Qed.

Lemma parseILMExpiration_one_shape_witness :
  let e := parseILMExpiration "2024-02-29" in
  Expiration.DeleteMarker e = false ∧ Expiration.Days e = 0.
Proof.
  apply (parseILMExpiration_one_shape "2024-02-29"). discriminate.
Defined.

(** ** More on the transition and filter codecs *)

Lemma decodeTransition_scanned (t : TransitionData.t) (rest : list TransitionData.t)
    (n : Z) :
  TransitionData.storage_class t ≠ EmptyString →
  GoFmt.Sscanf_dd (TransitionData.days t) = Some n → n ≠ 0 →
  decodeTransition (parseILMTransition (t :: rest))
  = [ {| TransitionData.days := GoFmt.Sprintf_dd n;
         TransitionData.date := EmptyString;
         TransitionData.storage_class := TransitionData.storage_class t |} ].
Proof.
  intros Hsc Hscan Hn. cbn [parseILMTransition]. rewrite Hscan.
  unfold decodeTransition, Transition.IsNull, Transition.IsDaysNull. cbn.
  rewrite (bool_decide_eq_false_2 _ Hsc). cbn.
  by destruct (Z.eqb_spec n 0).
Qed.

Lemma decodeTransition_dated (t : TransitionData.t) (rest : list TransitionData.t)
    (d : GoTime.Time) :
  TransitionData.storage_class t ≠ EmptyString →
  GoFmt.Sscanf_dd (TransitionData.days t) = None →
  GoTime.Parse (TransitionData.date t) = Some d → d ≠ GoTime.zero →
  decodeTransition (parseILMTransition (t :: rest))
  = [ {| TransitionData.days := EmptyString;
         TransitionData.date := TransitionData.date t;
         TransitionData.storage_class := TransitionData.storage_class t |} ].
Proof.
  intros Hsc Hscan Hdate Hd. cbn [parseILMTransition]. rewrite Hscan, Hdate.
  unfold decodeTransition, Transition.IsNull, Transition.IsDaysNull,
    Transition.IsDateNull, GoTime.IsZero. cbn.
  rewrite (bool_decide_eq_false_2 _ Hsc), (bool_decide_eq_false_2 _ Hd). cbn.
  by rewrite (GoTimeFacts.Format_Parse _ _ Hdate).
Qed.

(** X6: a first transition element whose [days] scans to a non-zero n and
    whose storage class is not empty is read back as one element with
    [days] = "<n>d", no [date] (whatever the input's [date] was) and the
    same storage class; one whose [days] does not scan and whose [date]
    parses to a date other than the zero date is read back with that
    [date] string, no [days] and the same storage class. *)
Theorem transition_roundtrip (t : TransitionData.t) (rest : list TransitionData.t) :
  TransitionData.storage_class t ≠ EmptyString →
  (∀ n, GoFmt.Sscanf_dd (TransitionData.days t) = Some n → n ≠ 0 →
        decodeTransition (parseILMTransition (t :: rest))
        = [ {| TransitionData.days := GoFmt.Sprintf_dd n;
               TransitionData.date := EmptyString;
               TransitionData.storage_class := TransitionData.storage_class t |} ])
  ∧ (∀ d, GoFmt.Sscanf_dd (TransitionData.days t) = None →
          GoTime.Parse (TransitionData.date t) = Some d → d ≠ GoTime.zero →
          decodeTransition (parseILMTransition (t :: rest))
          = [ {| TransitionData.days := EmptyString;
                 TransitionData.date := TransitionData.date t;
                 TransitionData.storage_class := TransitionData.storage_class t |} ]).
Proof.
  intros Hsc. split.
  - intros n Hscan Hn. by apply decodeTransition_scanned.
  - intros d Hscan Hdate Hd. by apply (decodeTransition_dated t rest d).
Qed.

Lemma transition_roundtrip_witness :
  decodeTransition (parseILMTransition [Spec.byDays])
  = [ {| TransitionData.days := GoFmt.Sprintf_dd 30; TransitionData.date := EmptyString;
         TransitionData.storage_class := "GLACIER" |} ]
  ∧ decodeTransition (parseILMTransition [Spec.byDate]) = [Spec.byDate].
Proof.
  split.
  - apply (proj1 (transition_roundtrip Spec.byDays [] ltac:(discriminate)) 30);
      [reflexivity|lia].
  - apply (proj2 (transition_roundtrip Spec.byDate [] ltac:(discriminate))
             {| GoTime.year := 2030; GoTime.month := 1; GoTime.day := 31 |});
      [reflexivity|reflexivity|discriminate].
Defined.

Lemma parseILMTransition_decode_fixed (ts : list TransitionData.t) :
  transitionRoundTrips ts = true →
  parseILMTransition (decodeTransition (parseILMTransition ts)) = parseILMTransition ts.
Proof.
  destruct ts as [|t rest]; [reflexivity|]. unfold transitionRoundTrips.
  destruct (GoFmt.Sscanf_dd (TransitionData.days t)) as [n|] eqn:Hscan.
  - intros [Hn Hsc]%andb_prop.
    apply negb_true_iff, Z.eqb_neq in Hn.
    apply negb_true_iff, bool_decide_eq_false in Hsc.
    rewrite (decodeTransition_scanned t rest n Hsc Hscan Hn).
    cbn [parseILMTransition]. rewrite Hscan. cbn [TransitionData.days].
    rewrite <- (GoFmtFacts.app_Empty_r (GoFmt.Sprintf_dd n)).
    rewrite GoFmtFacts.Sscanf_dd_Sprintf_dd; [reflexivity|].
    by apply (GoFmtRange.Sscanf_dd_range _ _ Hscan).
  - destruct (GoTime.Parse (TransitionData.date t)) as [d|] eqn:Hdate.
    + intros [Hd Hsc]%andb_prop.
      apply negb_true_iff, bool_decide_eq_false in Hd.
      apply negb_true_iff, bool_decide_eq_false in Hsc.
      rewrite (decodeTransition_dated t rest d Hsc Hscan Hdate Hd).
      cbn [parseILMTransition]. rewrite Hscan, Hdate.
      cbn [TransitionData.days TransitionData.date TransitionData.storage_class].
      rewrite GoFmtRange.Sscanf_dd_empty, Hdate. reflexivity.
    + intros _. cbn [parseILMTransition]. rewrite Hscan, Hdate. reflexivity.
Qed.

(** X7: for a transition list that [transitionRoundTrips] admits, encoding,
    decoding and encoding again gives the first encoding, and decoding once
    more gives the first decoded list. *)
Theorem parseILMTransition_stable (ts : list TransitionData.t) :
  transitionRoundTrips ts = true →
  parseILMTransition (decodeTransition (parseILMTransition ts)) = parseILMTransition ts
  ∧ decodeTransition (parseILMTransition (decodeTransition (parseILMTransition ts)))
    = decodeTransition (parseILMTransition ts).
Proof.
  intros Hts. pose proof (parseILMTransition_decode_fixed ts Hts) as Hfix.
  split; [exact Hfix|]. by rewrite Hfix.
Qed.

Lemma parseILMTransition_stable_witness :
  parseILMTransition (decodeTransition (parseILMTransition [Spec.byDays]))
  = parseILMTransition [Spec.byDays]
  ∧ decodeTransition
      (parseILMTransition (decodeTransition (parseILMTransition [Spec.byDays])))
    = decodeTransition (parseILMTransition [Spec.byDays]).
Proof. apply (parseILMTransition_stable [Spec.byDays]). reflexivity. Defined.

(** Inserting the entries of a list without repeated keys, front to back,
    builds the map of the list. *)
Lemma foldl_insert_list_to_map (l : list (string * string)) (m : gmap string string) :
  NoDup (l.*1) →
  foldl (λ m kv, <[kv.1 := kv.2]> m) m l = list_to_map l ∪ m.
Proof.
  revert m. induction l as [|[k v] l IH]; intros m Hnd; cbn.
  - by rewrite (left_id_L ∅ (∪)).
  - apply NoDup_cons in Hnd as [Hk Hnd]. rewrite (IH _ Hnd).
    apply not_elem_of_list_to_map_1 in Hk.
    by rewrite <- insert_union_r, insert_union_l.
Qed.

Lemma foldl_tags (l : list (string * string)) (m : gmap string string) :
  foldl (λ m tag, <[Tag.Key tag := Tag.Value tag]> m) m
        ((λ kv, {| Tag.Key := kv.1; Tag.Value := kv.2 |}) <$> l)
  = foldl (λ m kv, <[kv.1 := kv.2]> m) m l.
Proof. revert m. induction l as [|kv l IH]; intros m; cbn; [done|]. by rewrite IH. Qed.

Lemma decodeFilter_encodeFilter (o : MapRange) (prefix : string)
    (tags : gmap string string) :
  decodeFilter (encodeFilter o prefix tags) = (prefix, tags).
Proof.
  unfold encodeFilter. case_bool_decide as Hsize.
  - unfold decodeFilter. cbn [Filter.And And.Tags And.Prefix].
    rewrite bool_decide_eq_true_2.
    2:{ rewrite length_fmap, (Permutation_length (range_perm o tags)),
          length_map_to_list. done. }
    f_equal. rewrite foldl_tags, foldl_insert_list_to_map.
    + rewrite (right_id_L ∅ (∪)).
      rewrite (list_to_map_proper _ (map_to_list tags)).
      * apply list_to_map_to_list.
      * rewrite (range_perm o tags). apply NoDup_fst_map_to_list.
      * apply range_perm.
    + rewrite (range_perm o tags). apply NoDup_fst_map_to_list.
  - assert (tags = ∅) as ->.
    { apply map_size_empty_iff. lia. }
    reflexivity.
Qed.

(** X8: in whatever order the tag map is ranged over, decoding the filter
    that was encoded from a prefix and a tag map gives back that prefix and
    that tag map, and the result does not depend on the order. *)
Theorem filter_roundtrip (o : MapRange) (prefix : string) (tags : gmap string string) :
  decodeFilter (encodeFilter o prefix tags) = (prefix, tags)
  ∧ ∀ o', decodeFilter (encodeFilter o' prefix tags)
          = decodeFilter (encodeFilter o prefix tags).
Proof.
  split; [apply decodeFilter_encodeFilter|].
  intros o'. by rewrite !decodeFilter_encodeFilter.
Qed.

Lemma foldl_tags_other (l : list Tag.t) (m : gmap string string) (k : string) :
  (∀ t, t ∈ l → Tag.Key t ≠ k) →
  foldl (λ m tag, <[Tag.Key tag := Tag.Value tag]> m) m l !! k = m !! k.
Proof.
  revert m. induction l as [|t l IH]; intros m Hl; cbn; [done|].
  rewrite IH.
  - apply lookup_insert_ne, Hl. by left.
  - intros t' Ht'. apply Hl. by right.
Qed.

(** X9: when a filter read from the store has tags in its AND part, the
    decoded prefix is the AND prefix, a key that occurs more than once
    takes the value of its last occurrence, and a key that does not occur
    is absent from the decoded tag map. *)
Theorem decodeFilter_last_tag_wins (f : Filter.t) (l1 l2 : list Tag.t) (t : Tag.t) :
  And.Tags (Filter.And f) = (l1 ++ t :: l2)%list →
  (∀ t', t' ∈ l2 → Tag.Key t' ≠ Tag.Key t) →
  (decodeFilter f).1 = And.Prefix (Filter.And f)
  ∧ (decodeFilter f).2 !! Tag.Key t = Some (Tag.Value t)
  ∧ ∀ k, (∀ t', t' ∈ (l1 ++ t :: l2)%list → Tag.Key t' ≠ k) → (decodeFilter f).2 !! k = None.
Proof.
  intros Htags Hlast. unfold decodeFilter. rewrite Htags.
  rewrite bool_decide_eq_true_2 by (rewrite length_app; cbn; lia).
  cbn [fst snd]. split; [reflexivity|]. split.
  - rewrite foldl_app. cbn [foldl]. rewrite foldl_tags_other by done.
    apply lookup_insert_eq.
  - intros k Hk. by rewrite foldl_tags_other.
Qed.

Lemma decodeFilter_last_tag_wins_witness :
  let f := Spec.Compound "logs/"
             [ {| Tag.Key := "env"; Tag.Value := "dev" |};
               {| Tag.Key := "env"; Tag.Value := "prod" |} ] in
  (decodeFilter f).1 = "logs/"
  ∧ (decodeFilter f).2 !! "env" = Some "prod"
  ∧ ∀ k, (∀ t', t' ∈ ([ {| Tag.Key := "env"; Tag.Value := "dev" |} ]
                        ++ {| Tag.Key := "env"; Tag.Value := "prod" |} :: [])%list →
                Tag.Key t' ≠ k) →
         (decodeFilter f).2 !! k = None.
Proof.
  apply (decodeFilter_last_tag_wins
           (Spec.Compound "logs/"
              [ {| Tag.Key := "env"; Tag.Value := "dev" |};
                {| Tag.Key := "env"; Tag.Value := "prod" |} ])
           [ {| Tag.Key := "env"; Tag.Value := "dev" |} ] []
           {| Tag.Key := "env"; Tag.Value := "prod" |}).
  - reflexivity.
  - intros t' Ht'. by apply elem_of_nil in Ht'.
Defined.

(** ** Decoding, then encoding *)

Lemma daysIn_le (m y : Z) : GoTime.daysIn m y <= 31.
Proof. unfold GoTime.daysIn. repeat case_match; lia. Qed.

Lemma Parse_Format (d : GoTime.Time) :
  validDate d = true → GoTime.Parse (GoTime.Format d) = Some d.
Proof.
  destruct d as [y m dd]. unfold validDate. cbn [GoTime.year GoTime.month GoTime.day].
  intros H.
  repeat match type of H with
         | (_ && _ = true) => apply andb_prop in H as [H ?]
         end.
  repeat match goal with
         | Hb : (_ <=? _) = true |- _ => apply Z.leb_le in Hb
         end.
  unfold GoTime.Format. cbn [GoTime.year GoTime.month GoTime.day].
  assert (y = (y / 1000 * 10 + y / 100 mod 10) * 100 + (y / 10 mod 10 * 10 + y mod 10)
          ∧ 0 <= y / 1000 < 10) as [Hy Hy3]
    by (Z.div_mod_to_equations; lia).
  assert (m = m / 10 * 10 + m mod 10 ∧ 0 <= m / 10 < 10) as [Hm Hm1]
    by (Z.div_mod_to_equations; lia).
  assert (dd = dd / 10 * 10 + dd mod 10 ∧ 0 <= dd / 10 < 10) as [Hdd Hdd1]
    by (pose proof (daysIn_le m y); Z.div_mod_to_equations; lia).
  pose proof (Z.mod_pos_bound (y / 100) 10 ltac:(lia)).
  pose proof (Z.mod_pos_bound (y / 10) 10 ltac:(lia)).
  pose proof (Z.mod_pos_bound y 10 ltac:(lia)).
  pose proof (Z.mod_pos_bound m 10 ltac:(lia)).
  pose proof (Z.mod_pos_bound dd 10 ltac:(lia)).
  rewrite Hy at 1. rewrite Hm at 1. rewrite Hdd at 1.
  rewrite GoTimeFacts.appendInt_4, !GoTimeFacts.appendInt_2 by done.
  rewrite !GoFmtFacts.app_String, !GoFmtFacts.app_Empty.
  unfold GoTime.Parse, GoTime.num2.
  rewrite !GoFmtFacts.isDigit_digitChar, !GoFmtFacts.digitVal_digitChar by done.
  replace (GoFmt.code "-" =? 45) with true by reflexivity. cbn [andb].
  rewrite <- Hy, <- Hm, <- Hdd.
  cbv zeta.
  destruct (Z.leb_spec m 0); [lia|]. destruct (Z.ltb_spec 12 m); [lia|].
  destruct (Z.ltb_spec dd 1); [lia|].
  destruct (Z.ltb_spec (GoTime.daysIn m y) dd); [lia|]. reflexivity.
Qed.

(** X10: a store [Expiration] with one shape - the zero value, the delete
    marker, a non-zero day count that fits [int], or a calendar date of
    the years 0 to 9999 other than the zero date - is encoded back to
    itself from the string it is decoded to. *)
Theorem expiration_decode_encode (e : Expiration.t) :
  e = Expiration.zero
  ∨ e = parseILMExpiration "DeleteMarker"
  ∨ (∃ n, e = Spec.Days n ∧ n ≠ 0 ∧ - 2 ^ 63 <= n < 2 ^ 63)
  ∨ (∃ d, e = Spec.Date d ∧ d ≠ GoTime.zero ∧ validDate d = true) →
  parseILMExpiration (decodeExpiration e) = e.
Proof.
  intros [->|[->|[(n & -> & Hn & Hr)|(d & -> & Hd & Hv)]]].
  - reflexivity.
  - reflexivity.
  - rewrite decodeExpiration_Days by done. by apply parseILMExpiration_Sprintf_dd.
  - rewrite decodeExpiration_Date by done.
    by apply parseILMExpiration_dated, Parse_Format.
Qed.

Lemma expiration_decode_encode_witness :
  parseILMExpiration
    (decodeExpiration
       (Spec.Date {| GoTime.year := 2031; GoTime.month := 12; GoTime.day := 31 |}))
  = Spec.Date {| GoTime.year := 2031; GoTime.month := 12; GoTime.day := 31 |}.
Proof.
  apply expiration_decode_encode. right; right; right.
  exists {| GoTime.year := 2031; GoTime.month := 12; GoTime.day := 31 |}.
  split; [reflexivity|]. split; [discriminate|reflexivity].
Defined.

(** ** The rule assembler *)

Lemma decodeRule_buildRule_canonical (o : MapRange) (r : RuleData.t) :
  decodeRule (buildRule o r) = canonicalRule r.
Proof.
  unfold decodeRule, buildRule, canonicalRule.
  cbn [Rule.RuleFilter Rule.ID Rule.Expiration Rule.Transition Rule.Status
       Rule.NoncurrentVersionExpiration Rule.NoncurrentVersionTransition].
  rewrite decodeFilter_encodeFilter. f_equal; unfold decodeNoncurrentDays;
    match goal with |- (if negb (?n =? 0) then _ else _) = _ =>
      by destruct (Z.eqb_spec n 0) end.
Qed.

(** X11: in whatever order the tag map is ranged over, decoding the rule
    built from a rule input gives the input's id, prefix, tags and
    noncurrent day counts unchanged, status "Enabled" whatever the input
    held, and the expiration and transition in the form the codecs print;
    doing it once more changes only what the codecs change. *)
Theorem decodeRule_buildRule (o : MapRange) (r : RuleData.t) :
  decodeRule (buildRule o r) = canonicalRule r
  ∧ RuleData.id (decodeRule (buildRule o r)) = RuleData.id r
  ∧ RuleData.filter (decodeRule (buildRule o r)) = RuleData.filter r
  ∧ RuleData.tags (decodeRule (buildRule o r)) = RuleData.tags r
  ∧ RuleData.status (decodeRule (buildRule o r)) = "Enabled"
  ∧ ∀ o', decodeRule (buildRule o' r) = decodeRule (buildRule o r).
Proof.
  pose proof (decodeRule_buildRule_canonical o r) as Hc.
  rewrite Hc. repeat split. intros o'. apply decodeRule_buildRule_canonical.
Qed.

Lemma buildRule_stable_one (o : MapRange) (r : RuleData.t) :
  transitionRoundTrips (RuleData.transition r) = true →
  buildRule o (decodeRule (buildRule o r)) = buildRule o r.
Proof.
  intros Hts. rewrite decodeRule_buildRule_canonical. unfold buildRule, canonicalRule.
  cbn [RuleData.id RuleData.expiration RuleData.transition RuleData.filter
       RuleData.tags RuleData.noncurrent_version_expiration_days
       RuleData.noncurrent_version_transition_days].
  by rewrite parseILMExpiration_decode_fixed, parseILMTransition_decode_fixed.
Qed.

Lemma buildRule_decode_buildRule (o o' : MapRange) (r : RuleData.t) :
  transitionRoundTrips (RuleData.transition r) = true →
  buildRule o' (decodeRule (buildRule o r)) = buildRule o' r.
Proof.
  intros Hts. rewrite decodeRule_buildRule_canonical. unfold buildRule, canonicalRule.
  cbn [RuleData.id RuleData.expiration RuleData.transition RuleData.filter
       RuleData.tags RuleData.noncurrent_version_expiration_days
       RuleData.noncurrent_version_transition_days].
  by rewrite parseILMExpiration_decode_fixed, parseILMTransition_decode_fixed.
Qed.

(** Two builds of one rule input differ at most in the order of the tags. *)
Lemma buildRule_up_to_tag_order (o o' : MapRange) (r : RuleData.t) :
  sameRuleUpToTagOrder (buildRule o' r) (buildRule o r).
Proof.
  unfold sameRuleUpToTagOrder, buildRule, encodeFilter.
  cbn [Rule.ID Rule.Expiration Rule.Transition Rule.NoncurrentVersionExpiration
       Rule.NoncurrentVersionTransition Rule.Status Rule.RuleFilter].
  case_bool_decide; cbn [Filter.Prefix Filter.And And.Prefix And.Tags];
    repeat split; try reflexivity.
  by rewrite (range_perm o'), (range_perm o).
Qed.

(** X12: when every rule input has a transition list that
    [transitionRoundTrips] admits, then whatever order the first build
    ranged over the tag maps in, and whatever order a later build does,
    building the store rules from the rules decoded from the first build
    gives exactly what the later build gives from the original inputs; so
    the rewritten configuration has the rules of the first one, in the same
    order, each equal to its counterpart up to the order of the tags in the
    AND part of its filter. *)
Theorem buildRule_stable (o o' : MapRange) (rules : list RuleData.t) :
  Forall (λ r, transitionRoundTrips (RuleData.transition r) = true) rules →
  buildRule o' <$> (decodeRule <$> (buildRule o <$> rules)) = buildRule o' <$> rules
  ∧ Forall2 sameRuleUpToTagOrder
      (buildRule o' <$> (decodeRule <$> (buildRule o <$> rules)))
      (buildRule o <$> rules).
Proof.
  intros Hrules.
  assert (buildRule o' <$> (decodeRule <$> (buildRule o <$> rules))
          = buildRule o' <$> rules) as Heq.
  { induction Hrules as [|r rules Hr _ IH]; [reflexivity|].
    cbn [fmap list_fmap] in *. by rewrite (buildRule_decode_buildRule o o' r Hr), IH. }
  split; [exact Heq|]. rewrite Heq. clear Heq Hrules.
  induction rules as [|r rules IH]; cbn [fmap list_fmap]; constructor.
  - apply buildRule_up_to_tag_order.
  - exact IH.
Qed.

(** The two orders do write the tags of [r2] differently. *)
Example buildRule_orders_differ :
  buildRule reverseRange Spec.r2 ≠ buildRule defaultRange Spec.r2.
Proof. vm_compute. discriminate. Qed.

Lemma buildRule_stable_witness :
  buildRule reverseRange
    <$> (decodeRule <$> (buildRule defaultRange <$> [Spec.r2; Spec.r1 EmptyString]))
  = buildRule reverseRange <$> [Spec.r2; Spec.r1 EmptyString]
  ∧ Forall2 sameRuleUpToTagOrder
      (buildRule reverseRange
         <$> (decodeRule <$> (buildRule defaultRange <$> [Spec.r2; Spec.r1 EmptyString])))
      (buildRule defaultRange <$> [Spec.r2; Spec.r1 EmptyString]).
Proof.
  apply (buildRule_stable defaultRange reverseRange [Spec.r2; Spec.r1 EmptyString]).
  apply Forall_cons. split; [reflexivity|].
  apply Forall_cons. split; [reflexivity|apply Forall_nil_2].
Defined.

(** X13: the two validators of the noncurrent day counts accept exactly
    the values from 1 up; any other value, 0 included, gets the one
    diagnostic that names the attribute. *)
Theorem validateILMNoncurrent_accepts_iff (v : Z) :
  (validateILMNoncurrentVersionExpiration v = [] ↔ 1 <= v)
  ∧ (validateILMNoncurrentVersionTransition v = [] ↔ 1 <= v)
  ∧ (v < 1 →
     validateILMNoncurrentVersionExpiration v
     = [diag.Errorf "noncurrent_version_expiration_days must be strictly positive"]
     ∧ validateILMNoncurrentVersionTransition v
       = [diag.Errorf "noncurrent_version_transition_days must be strictly positive"]).
Proof.
  unfold validateILMNoncurrentVersionExpiration, validateILMNoncurrentVersionTransition.
  destruct (Z.ltb_spec v 1); repeat split; try done; try lia.
Qed.

Lemma validateILMNoncurrent_accepts_iff_witness :
  validateILMNoncurrentVersionExpiration 0
  = [diag.Errorf "noncurrent_version_expiration_days must be strictly positive"]
  ∧ validateILMNoncurrentVersionTransition 0
    = [diag.Errorf "noncurrent_version_transition_days must be strictly positive"].
Proof. apply (validateILMNoncurrent_accepts_iff 0). lia. Defined.

(** ** More on the operations *)

Section MoreOperationFacts.
Context {Store : Type} `{!S3Client Store}.

(** X14: what a create returns is fixed by what the store answers.  The
    write of the built rules to the bucket is refused: the store's error
    comes back tagged with the [bucket] attribute and the resource data,
    identity included, stays as it was.  The write is taken and the read of
    the same bucket fails: no diagnostic, and the identity is empty.  The
    write is taken and the read returns rules: no diagnostic, the identity
    and the [bucket] attribute are both the input's [bucket], and the rules
    are those decoded from what the read returned.  In each case the store
    is left in the state of its last answer. *)
Theorem minioCreateILMPolicy_outcomes (o : MapRange) (c : Store) (d : ResourceData.t) :
  (∀ c1 err,
     SetBucketLifecycle c (ResourceData.bucket d) (buildRule o <$> ResourceData.rule d)
     = (c1, Some err) →
     minioCreateILMPolicy o c d
     = (c1, d, [diag.NewResourceError "creating bucket lifecycle failed"
                  (ResourceData.bucket d) err]))
  ∧ (∀ c1 c2 err,
       SetBucketLifecycle c (ResourceData.bucket d) (buildRule o <$> ResourceData.rule d)
       = (c1, None) →
       GetBucketLifecycle c1 (ResourceData.bucket d) = (c2, inr err) →
       minioCreateILMPolicy o c d
       = (c2,
          {| ResourceData.Id := EmptyString;
             ResourceData.bucket := ResourceData.bucket d;
             ResourceData.rule := ResourceData.rule d |},
          []))
  ∧ (∀ c1 c2 config,
       SetBucketLifecycle c (ResourceData.bucket d) (buildRule o <$> ResourceData.rule d)
       = (c1, None) →
       GetBucketLifecycle c1 (ResourceData.bucket d) = (c2, inl config) →
       minioCreateILMPolicy o c d
       = (c2,
          {| ResourceData.Id := ResourceData.bucket d;
             ResourceData.bucket := ResourceData.bucket d;
             ResourceData.rule := decodeRule <$> config |},
          [])).
Proof.
  unfold minioCreateILMPolicy, minioReadILMPolicy. split; [|split].
  - intros c1 err Hset. by rewrite Hset.
  - intros c1 c2 err Hset Hget. rewrite Hset.
    cbn [ResourceData.SetId ResourceData.Id]. by rewrite Hget.
  - intros c1 c2 config Hset Hget. rewrite Hset.
    cbn [ResourceData.SetId ResourceData.Id]. by rewrite Hget.
Qed.

(** X15: on a store that takes the write of the built rules and then
    returns them for the bucket, a create returns no diagnostic and leaves
    the identity and the [bucket] attribute equal to the bucket and each
    rule in its canonical form, in the order given. *)
Theorem minioCreateILMPolicy_mirrors (o : MapRange) (c c1 c2 : Store)
    (d : ResourceData.t) :
  SetBucketLifecycle c (ResourceData.bucket d) (buildRule o <$> ResourceData.rule d)
  = (c1, None) →
  GetBucketLifecycle c1 (ResourceData.bucket d)
  = (c2, inl (buildRule o <$> ResourceData.rule d)) →
  minioCreateILMPolicy o c d
  = (c2,
     {| ResourceData.Id := ResourceData.bucket d;
        ResourceData.bucket := ResourceData.bucket d;
        ResourceData.rule := canonicalRule <$> ResourceData.rule d |},
     []).
Proof.
  intros Hset Hget. unfold minioCreateILMPolicy, minioReadILMPolicy.
  rewrite Hset. cbn [ResourceData.SetId ResourceData.Id]. rewrite Hget.
  unfold ResourceData.Set_rule, ResourceData.Set_bucket. cbn. do 3 f_equal.
  rewrite <- list_fmap_compose. apply list_fmap_ext. intros i r _.
  apply decodeRule_buildRule_canonical.
Qed.

(** X16: when the write succeeds and the store then answers the read of
    the bucket with rules without changing, an update with changed rule
    inputs returns what the create returns. *)
Theorem minioUpdateILMPolicy_as_create (o : MapRange) (c c1 : Store)
    (d : ResourceData.t) (config : Configuration) :
  SetBucketLifecycle c (ResourceData.bucket d) (buildRule o <$> ResourceData.rule d)
  = (c1, None) →
  GetBucketLifecycle c1 (ResourceData.bucket d) = (c1, inl config) →
  minioUpdateILMPolicy o true c d = minioCreateILMPolicy o c d.
Proof.
  intros Hset Hget.
  assert (minioCreateILMPolicy o c d
          = (c1, {| ResourceData.Id := ResourceData.bucket d;
                    ResourceData.bucket := ResourceData.bucket d;
                    ResourceData.rule := decodeRule <$> config |}, [])) as Hcreate.
  { unfold minioCreateILMPolicy, minioReadILMPolicy. rewrite Hset.
    cbn [ResourceData.SetId ResourceData.Id]. by rewrite Hget. }
  unfold minioUpdateILMPolicy. rewrite Hcreate.
  unfold minioReadILMPolicy. cbn [ResourceData.Id]. by rewrite Hget.
Qed.

(** X17: when the store refuses the write, a create returns the store
    error tagged with the bucket and leaves the resource data as it was,
    and an update with changed rule inputs returns what a read of that
    unchanged resource data returns: the write error is not among its
    diagnostics. *)
Theorem minioUpdateILMPolicy_write_failure (o : MapRange) (c c1 : Store)
    (d : ResourceData.t) (err : error) :
  SetBucketLifecycle c (ResourceData.bucket d) (buildRule o <$> ResourceData.rule d)
  = (c1, Some err) →
  minioCreateILMPolicy o c d
  = (c1, d, [diag.NewResourceError "creating bucket lifecycle failed"
               (ResourceData.bucket d) err])
  ∧ minioUpdateILMPolicy o true c d = minioReadILMPolicy c1 d.
Proof.
  intros Hset.
  assert (minioCreateILMPolicy o c d
          = (c1, d, [diag.NewResourceError "creating bucket lifecycle failed"
                       (ResourceData.bucket d) err])) as Hcreate.
  { unfold minioCreateILMPolicy. by rewrite Hset. }
  split; [exact Hcreate|]. unfold minioUpdateILMPolicy. by rewrite Hcreate.
Qed.

(** X18: when the store answers the read of the resource's identity with
    rules and does not change, the read keeps the identity, sets the
    [bucket] attribute to it, stores the decoded rules, and a second read
    changes nothing more. *)
Theorem minioReadILMPolicy_idempotent (c : Store) (d : ResourceData.t)
    (config : Configuration) :
  GetBucketLifecycle c (ResourceData.Id d) = (c, inl config) →
  let d1 := {| ResourceData.Id := ResourceData.Id d;
               ResourceData.bucket := ResourceData.Id d;
               ResourceData.rule := decodeRule <$> config |} in
  minioReadILMPolicy c d = (c, d1, []) ∧ minioReadILMPolicy c d1 = (c, d1, []).
Proof.
  intros Hget. cbn zeta. unfold minioReadILMPolicy.
  cbn [ResourceData.Id]. by rewrite Hget.
Qed.

End MoreOperationFacts.

Lemma minioCreateILMPolicy_outcomes_witness :
  minioCreateILMPolicy defaultRange Spec.lockedStore Spec.d1
  = (Spec.lockedStore, Spec.d1,
     [diag.NewResourceError "creating bucket lifecycle failed"
        (ResourceData.bucket Spec.d1) "AccessDenied"])
  ∧ minioCreateILMPolicy defaultRange Blind Spec.d1
    = (Blind,
       {| ResourceData.Id := EmptyString;
          ResourceData.bucket := ResourceData.bucket Spec.d1;
          ResourceData.rule := ResourceData.rule Spec.d1 |},
       [])
  ∧ minioCreateILMPolicy defaultRange Spec.openStore Spec.d1
    = ({[ "b1" := {| Bucket.writable := true;
                     Bucket.rules := buildRule defaultRange <$> ResourceData.rule Spec.d1 |} ]},
       {| ResourceData.Id := ResourceData.bucket Spec.d1;
          ResourceData.bucket := ResourceData.bucket Spec.d1;
          ResourceData.rule :=
            decodeRule <$> (buildRule defaultRange <$> ResourceData.rule Spec.d1) |},
       []).
Proof.
  split; [|split].
  - apply (proj1 (minioCreateILMPolicy_outcomes defaultRange Spec.lockedStore Spec.d1)).
    reflexivity.
  - apply (proj1 (proj2 (minioCreateILMPolicy_outcomes defaultRange Blind Spec.d1))
             Blind Blind "RequestTimeout"); reflexivity.
  - apply (proj2 (proj2 (minioCreateILMPolicy_outcomes defaultRange Spec.openStore Spec.d1))
             {[ "b1" := {| Bucket.writable := true;
                           Bucket.rules :=
                             buildRule defaultRange <$> ResourceData.rule Spec.d1 |} ]});
      reflexivity.
Defined.

Lemma minioCreateILMPolicy_mirrors_witness :
  minioCreateILMPolicy defaultRange Spec.openStore Spec.d1
  = ({[ "b1" := {| Bucket.writable := true;
                   Bucket.rules := buildRule defaultRange <$> ResourceData.rule Spec.d1 |} ]},
     {| ResourceData.Id := ResourceData.bucket Spec.d1;
        ResourceData.bucket := ResourceData.bucket Spec.d1;
        ResourceData.rule := canonicalRule <$> ResourceData.rule Spec.d1 |},
     []).
Proof.
  apply (minioCreateILMPolicy_mirrors defaultRange Spec.openStore
           {[ "b1" := {| Bucket.writable := true;
                         Bucket.rules := buildRule defaultRange <$> ResourceData.rule Spec.d1 |} ]});
    reflexivity.
Defined.

Lemma minioUpdateILMPolicy_as_create_witness :
  minioUpdateILMPolicy defaultRange true Spec.openStore Spec.d1
  = minioCreateILMPolicy defaultRange Spec.openStore Spec.d1.
Proof.
  apply (minioUpdateILMPolicy_as_create defaultRange Spec.openStore
           {[ "b1" := {| Bucket.writable := true;
                         Bucket.rules := buildRule defaultRange <$> ResourceData.rule Spec.d1 |} ]}
           Spec.d1 (buildRule defaultRange <$> ResourceData.rule Spec.d1));
    reflexivity.
Defined.

Lemma minioUpdateILMPolicy_write_failure_witness :
  minioCreateILMPolicy defaultRange Spec.lockedStore Spec.d1
  = (Spec.lockedStore, Spec.d1,
     [diag.NewResourceError "creating bucket lifecycle failed"
        (ResourceData.bucket Spec.d1) "AccessDenied"])
  ∧ minioUpdateILMPolicy defaultRange true Spec.lockedStore Spec.d1
    = minioReadILMPolicy Spec.lockedStore Spec.d1.
Proof.
  apply (minioUpdateILMPolicy_write_failure defaultRange Spec.lockedStore
           Spec.lockedStore Spec.d1 "AccessDenied").
  reflexivity.
Defined.

Lemma minioReadILMPolicy_idempotent_witness :
  let d1 := {| ResourceData.Id := ResourceData.Id Spec.d1;
               ResourceData.bucket := ResourceData.Id Spec.d1;
               ResourceData.rule := decodeRule <$> [] |} in
  minioReadILMPolicy Spec.openStore Spec.d1 = (Spec.openStore, d1, [])
  ∧ minioReadILMPolicy Spec.openStore d1 = (Spec.openStore, d1, []).
Proof.
  apply (minioReadILMPolicy_idempotent Spec.openStore Spec.d1 []). reflexivity.
Defined.
